(** * The Rcpp binding of Rtsne.multicore: src/RcppExports.cpp

    The file holds one function, [Rtsne_multicore_Rtsne_cpp], generated by
    Rcpp::compileAttributes().  It receives six host objects (SEXP), turns
    them into a NumericMatrix, three int and two double, calls the native
    routine [Rtsne_cpp] (declared on line 9, defined elsewhere) and hands the
    list it returns back to the host.

    The function is written with the macros and templates of Rcpp, on top
    of the C interface of R.  Neither belongs to the repository; what the
    function uses of them is written here after their sources, each piece
    under the name it has there:
    - R: Rf_length, Rf_isMatrix, Rf_coerceVector (coerce.c), GetRNGstate
      and PutRNGstate (RNG.c);
    - Rcpp: r_cast (r_cast.h), as<T> (as.h), the constructor of Matrix
      (vector/Matrix.h), InputParameter (InputParameter.h), RNGScope,
      wrap, BEGIN_RCPP and END_RCPP (macros/macros.h).

    The development is organised as follows:
    - [IEEE754]: a double as its 64 bits, with the order of the values;
    - host objects, the host heap and the host state;
    - the exceptions of C++ and the monad in which the body runs;
    - the pieces of Rcpp listed above;
    - the wrapper itself;
    - the native routine as the specification describes it;
    - the properties. *)

From Stdlib Require Import ZArith Lia.
From stdpp Require Import gmap strings pretty list sorting fin_maps.

Local Open Scope Z_scope.

(** ** Doubles *)

Module IEEE754.

(** A C [double] is kept as its 64 bits, so that two doubles are equal
    exactly when they are bit-for-bit identical. *)
Definition double : Type := Z.

Definition sign_bit (x : double) : bool := Z.testbit x 63.
Definition biased_exponent (x : double) : Z := Z.land (Z.shiftr x 52) 2047.
Definition fraction (x : double) : Z := Z.land x (2 ^ 52 - 1).

(** Every finite double is a whole multiple of 2^-1074; [Finite k]
    stands for k * 2^-1074. *)
Inductive value : Type :=
| NaN
| Infinite (negative : bool)
| Finite (scaled : Z).

Definition value_of (x : double) : value :=
  if biased_exponent x =? 2047 then
    if fraction x =? 0 then Infinite (sign_bit x) else NaN
  else
    let magnitude :=
      if biased_exponent x =? 0 then fraction x
      else (2 ^ 52 + fraction x) * 2 ^ (biased_exponent x - 1) in
    Finite (if sign_bit x then - magnitude else magnitude).

Definition of_int (n : Z) : value := Finite (n * 2 ^ 1074).



Definition ISNAN (x : double) : bool :=
  match value_of x with NaN => true | _ => false end.

(** [(double) n] for an integer that fits 53 bits (every C int does). *)
Definition encode (n : Z) : double :=
  if n =? 0 then 0
  else
    let a := Z.abs n in
    let e := Z.log2 a in
    (if n <? 0 then 2 ^ 63 else 0)
    + Z.shiftl (e + 1023) 52
    + (Z.shiftl a (52 - e) - 2 ^ 52).

(** [(int) x] of a finite double: the fractional part is discarded. *)
Definition truncate (scaled : Z) : Z := Z.quot scaled (2 ^ 1074).

End IEEE754.

Export IEEE754(double).

(** ** Host objects *)

(** A SEXP is a pointer into the host's heap. *)
Definition SEXP : Type := positive.

Definition NA_INTEGER : Z := - 2 ^ 31.
Definition NA_LOGICAL : Z := - 2 ^ 31.
(** The NaN whose low word is 1954. *)
Definition NA_REAL : double := 9218868437227407266.

Inductive SEXPTYPE : Type :=
| NILSXP | LGLSXP | INTSXP | REALSXP | CPLXSXP | STRSXP | VECSXP | RAWSXP
| OTHERSXP.

Global Instance SEXPTYPE_eq_dec : EqDecision SEXPTYPE.
Proof. solve_decision. Defined.

(** What an object holds.  [Other] stands for the kinds that are not
    vectors (closures, environments, pairlists, symbols, ...), of which
    only the name of the type and the length are kept. *)
Inductive payload : Type :=
| Nil
| Lgl (v : list Z)
| Int (v : list Z)
| Real (v : list double)
| Cplx (v : list (double * double))
| Str (v : list string)
| Vec (v : list SEXP)
| Raw (v : list Z)
| Other (type_name : string) (len : nat).

(** An object with the two attributes that matter here. *)
Record robj : Type := mk_robj {
  data : payload;
  dim : option (list Z);
  names : option (list string)
}.

Definition TYPEOF (o : robj) : SEXPTYPE :=
  match data o with
  | Nil => NILSXP | Lgl _ => LGLSXP | Int _ => INTSXP | Real _ => REALSXP
  | Cplx _ => CPLXSXP | Str _ => STRSXP | Vec _ => VECSXP | Raw _ => RAWSXP
  | Other _ _ => OTHERSXP
  end.

Definition Rf_length (o : robj) : nat :=
  match data o with
  | Nil => 0%nat
  | Lgl v | Int v | Raw v => length v
  | Real v => length v
  | Cplx v => length v
  | Str v => length v
  | Vec v => length v
  | Other _ len => len
  end.

Definition Rf_isVector (o : robj) : bool :=
  match data o with
  | Nil | Other _ _ => false
  | _ => true
  end.

(** Rf_isMatrix: a vector whose dim attribute has length 2. *)
Definition Rf_isMatrix (o : robj) : bool :=
  Rf_isVector o &&
  match dim o with
  | Some [_; _] => true
  | _ => false
  end.

Definition R_NilObject : robj := mk_robj Nil None None.

(** ** The host's conversions between numbers

    Rf_coerceVector converts element by element; the element conversions
    belong to the host (coerce.c of R) and are taken as an interface. *)
Class HostCoercion : Type := {
  IntegerFromLogical : Z → Z;
  IntegerFromReal : double → Z;
  IntegerFromComplex : double * double → Z;
  IntegerFromRaw : Z → Z;
  RealFromLogical : Z → double;
  RealFromInteger : Z → double;
  RealFromComplex : double * double → double;
  RealFromRaw : Z → double
}.

(** The conversions of R (coerce.c, as of R 4), used for the concrete
    runs below. *)
Module R_coerce.
Import IEEE754.

Definition IntegerFromLogical (x : Z) : Z :=
  if x =? NA_LOGICAL then NA_INTEGER else x.

Definition IntegerFromReal (x : double) : Z :=
  match value_of x with
  | Finite k =>
      let n := truncate k in
      if (2 ^ 31 <=? n) || (n <=? - 2 ^ 31) then NA_INTEGER else n
  | _ => NA_INTEGER
  end.

Definition IntegerFromComplex (x : double * double) : Z :=
  if ISNAN (fst x) || ISNAN (snd x) then NA_INTEGER
  else IntegerFromReal (fst x).

Definition IntegerFromRaw (x : Z) : Z := x.

Definition RealFromLogical (x : Z) : double :=
  if x =? NA_LOGICAL then NA_REAL else encode x.

Definition RealFromInteger (x : Z) : double :=
  if x =? NA_INTEGER then NA_REAL else encode x.

Definition RealFromComplex (x : double * double) : double :=
  if ISNAN (fst x) || ISNAN (snd x) then NA_REAL else fst x.

Definition RealFromRaw (x : Z) : double := encode x.

Definition host : HostCoercion :=
  Build_HostCoercion IntegerFromLogical IntegerFromReal IntegerFromComplex
    IntegerFromRaw RealFromLogical RealFromInteger RealFromComplex
    RealFromRaw.
End R_coerce.

(** ** The host state *)

(** What a call can reach of the host process:
    - [heap]: the host's objects;
    - [Random_seed]: the variable .Random.seed of the global environment,
      which is what the caller sees of the random number generator;
    - [generator]: the generator's state inside the host's C runtime;
    - [entropy]: clock and process id, from which an unseeded generator
      is started;
    - [elsewhere]: everything else (static data of the native routine,
      files, the console). *)
Record hstate : Type := mk_hstate {
  heap : gmap SEXP robj;
  Random_seed : option Z;
  generator : Z;
  entropy : Z;
  elsewhere : Z
}.

Definition set_heap (h : gmap SEXP robj) (st : hstate) : hstate :=
  mk_hstate h (Random_seed st) (generator st) (entropy st) (elsewhere st).

(** The object a pointer leads to; a pointer outside the heap is read
    as R_NilValue. *)
Definition object (st : hstate) (x : SEXP) : robj :=
  default R_NilObject (heap st !! x).

(** GetRNGstate: load .Random.seed into the generator, or start the
    generator from the clock when the variable does not exist.  (A
    .Random.seed that is not a valid seed is left out of the model.) *)
Definition GetRNGstate (st : hstate) : hstate :=
  mk_hstate (heap st) (Random_seed st)
    (match Random_seed st with Some s => s | None => entropy st end)
    (entropy st) (elsewhere st).

(** PutRNGstate: store the generator's state in .Random.seed. *)
Definition PutRNGstate (st : hstate) : hstate :=
  mk_hstate (heap st) (Some (generator st)) (generator st)
    (entropy st) (elsewhere st).

(** ** C++ exceptions and the host's conditions *)

Inductive exn : Type :=
| InterruptedException                 (* Rcpp::internal::InterruptedException *)
| Exception (class what : string)      (* a std::exception: dynamic class, what() *)
| OtherException.                      (* anything else that was thrown *)

Inductive condition : Type :=
| interrupt
| error_condition (classes : list string) (message : string).

(** How a call through the foreign interface can end. *)
Inductive outcome : Type :=
| Returned (value : SEXP)
| Signalled (c : condition)
| Escaped (e : exn).

Inductive result (A : Type) : Type :=
| Ok (a : A)
| Throw (e : exn).
Arguments Ok {A} a.
Arguments Throw {A} e.

(** ** What the wrapper works with *)

Inductive param : Type :=
| P_X | P_no_dims_in | P_perplexity_in | P_theta_in | P_num_threads
| P_max_iter.

Global Instance param_eq_dec : EqDecision param.
Proof. solve_decision. Defined.

(** Rcpp's Matrix<REALSXP>: a pointer to the host object and the cached
    number of rows.  Copying it copies the pointer, not the object. *)
Record NumericMatrix : Type := mk_NumericMatrix {
  matrix_sexp : SEXP;
  nrows : Z
}.

(** Rcpp::List: a pointer to a host list. *)
Record List : Type := mk_List { list_sexp : SEXP }.

(** The signature of line 9: a routine that, started in a state of the
    host, returns a list or throws, and leaves a state. *)
Definition native : Type :=
  NumericMatrix → Z → double → double → Z → Z → hstate → result List * hstate.

(** The observable steps of one call, in order. *)
Inductive event : Type :=
| EvGetRNGstate
| EvPutRNGstate
| EvAs (p : param)
| EvRtsne_cpp (X : NumericMatrix) (no_dims_in : Z) (perplexity_in theta_in : double)
              (num_threads max_iter : Z) (entry : hstate).

(** State, exceptions and the log of events.  An exception keeps the
    state reached when it was thrown. *)
Definition M (A : Type) : Type := hstate → result A * hstate * list event.

Global Instance M_ret : MRet M := λ A a st, (Ok a, st, []).
Global Instance M_bind : MBind M := λ A B k m st,
  match m st with
  | (Ok a, st1, tr1) =>
      match k a st1 with
      | (r, st2, tr2) => (r, st2, tr1 ++ tr2)
      end
  | (Throw e, st1, tr1) => (Throw e, st1, tr1)
  end.

Definition throw {A : Type} (e : exn) : M A := λ st, (Throw e, st, []).
Definition log (ev : event) : M unit := λ st, (Ok tt, st, [ev]).
Definition read (x : SEXP) : M robj := λ st, (Ok (object st x), st, []).

(** Rf_allocVector and the like: a new object at a pointer not in use. *)
Definition alloc (o : robj) : M SEXP := λ st,
  let x := fresh (dom (heap st)) in
  (Ok x, set_heap (<[x := o]> (heap st)) st, []).

(** ** Rcpp

    The generated code is written with Rcpp's macros and templates; this
    section gives what they expand to. *)

Section Rcpp.
Context `{HostCoercion}.

(** Rf_type2char *)
Definition type2char (o : robj) : string :=
  match data o with
  | Nil => "NULL" | Lgl _ => "logical" | Int _ => "integer"
  | Real _ => "double" | Cplx _ => "complex" | Str _ => "character"
  | Vec _ => "list" | Raw _ => "raw" | Other type_name _ => type_name
  end.

Definition target2char (target : SEXPTYPE) : string :=
  match target with
  | INTSXP => "integer" | REALSXP => "double" | LGLSXP => "logical"
  | CPLXSXP => "complex" | STRSXP => "character" | VECSXP => "list"
  | RAWSXP => "raw" | NILSXP => "NULL" | OTHERSXP => "other"
  end.

(** Rcpp::not_compatible and Rcpp::not_a_matrix, both std::exception.
    They are the failures of type conversion. *)
Definition not_compatible (what : string) : exn :=
  Exception "Rcpp::not_compatible" what.
Definition not_a_matrix : exn :=
  Exception "Rcpp::not_a_matrix" "Not a matrix.".

Definition integers (p : payload) : option (list Z) :=
  match p with
  | Lgl v => Some (IntegerFromLogical <$> v)
  | Int v => Some v
  | Real v => Some (IntegerFromReal <$> v)
  | Cplx v => Some (IntegerFromComplex <$> v)
  | Raw v => Some (IntegerFromRaw <$> v)
  | _ => None
  end.

Definition reals (p : payload) : option (list double) :=
  match p with
  | Lgl v => Some (RealFromLogical <$> v)
  | Int v => Some (RealFromInteger <$> v)
  | Real v => Some v
  | Cplx v => Some (RealFromComplex <$> v)
  | Raw v => Some (RealFromRaw <$> v)
  | _ => None
  end.

(** Rf_coerceVector, for the two targets and the five kinds of source
    that r_cast passes to it: a new vector with the converted elements
    and the attributes of the old one. *)
Definition Rf_coerceVector (o : robj) (target : SEXPTYPE) : robj :=
  match target with
  | INTSXP =>
      match integers (data o) with
      | Some v => mk_robj (Int v) (dim o) (names o)
      | None => o
      end
  | REALSXP =>
      match reals (data o) with
      | Some v => mk_robj (Real v) (dim o) (names o)
      | None => o
      end
  | _ => o
  end.

(** r_cast<TARGET>(x), with internal::basic_cast<TARGET>: the pointer
    itself when the object has the target type already, a converted copy
    for the other number-like kinds, and not_compatible for the rest. *)
Definition r_cast (target : SEXPTYPE) (x : SEXP) : M SEXP :=
  o ← read x;
  if decide (TYPEOF o = target) then mret x
  else
    match TYPEOF o with
    | REALSXP | RAWSXP | LGLSXP | CPLXSXP | INTSXP =>
        alloc (Rf_coerceVector o target)
    | _ =>
        throw (not_compatible
                 ("Not compatible with requested type: [type=" +:+ type2char o
                  +:+ "; target=" +:+ target2char target +:+ "]."))
    end.

(** INTEGER(y)[0] and REAL(y)[0] *)
Definition INTEGER_0 (o : robj) : Z :=
  match data o with
  | Int (v :: _) => v
  | _ => 0
  end.

Definition REAL_0 (o : robj) : double :=
  match data o with
  | Real (v :: _) => v
  | _ => 0
  end.

Definition expecting_a_single_value (o : robj) : exn :=
  not_compatible
    ("Expecting a single value: [extent=" +:+ pretty (Rf_length o) +:+ "].").

(** as<int>(x), through internal::primitive_as<int> *)
Definition as_int (x : SEXP) : M Z :=
  o ← read x;
  if decide (Rf_length o = 1%nat) then
    y ← r_cast INTSXP x;
    o' ← read y;
    mret (INTEGER_0 o')
  else throw (expecting_a_single_value o).

(** as<double>(x), through internal::primitive_as<double> *)
Definition as_double (x : SEXP) : M double :=
  o ← read x;
  if decide (Rf_length o = 1%nat) then
    y ← r_cast REALSXP x;
    o' ← read y;
    mret (REAL_0 o')
  else throw (expecting_a_single_value o).

(** Vector::dims()[0] *)
Definition dims_0 (o : robj) : Z :=
  match dim o with
  | Some (r :: _) => r
  | _ => 0
  end.

(** as<NumericMatrix>(x), that is Matrix(SEXP x) :
    VECTOR(r_cast<REALSXP>(x)), nrows(VECTOR::dims()[0]), where dims()
    throws not_a_matrix unless Rf_isMatrix.  A matrix of doubles is not
    copied: the NumericMatrix points to the caller's object. *)
Definition as_NumericMatrix (x : SEXP) : M NumericMatrix :=
  y ← r_cast REALSXP x;
  o ← read y;
  if Rf_isMatrix o then mret (mk_NumericMatrix y (dims_0 o))
  else throw not_a_matrix.

(** Rcpp::wrap of a List: the pointer it holds. *)
Definition wrap (l : List) : SEXP := list_sexp l.

(** Rcpp::RNGScope, for a call that is not nested in another scope: the
    constructor calls GetRNGstate, the destructor PutRNGstate.  The
    destructor runs when the scope is left, by a return or by an
    exception alike. *)
Definition RNGScope {A : Type} (body : M A) : M A := λ st,
  match body (GetRNGstate st) with
  | (r, st', tr) => (r, PutRNGstate st', EvGetRNGstate :: tr ++ [EvPutRNGstate])
  end.

(** The catch clauses of END_RCPP, in the order of the macro.  A clause
    that matches gives the condition that is then signalled to the
    host: Rf_onintr() for an interrupt, stop(condition) otherwise.
    The clauses for Rcpp::exception and for std::exception build the
    same thing here, a condition with the class and the message of the
    exception. *)
Definition catch_clause : Type := exn → option condition.

Definition catch_InterruptedException : catch_clause := λ e,
  match e with
  | InterruptedException => Some interrupt
  | _ => None
  end.

Definition catch_std_exception : catch_clause := λ e,
  match e with
  | Exception class what =>
      Some (error_condition [class; "C++Error"; "error"; "condition"] what)
  | _ => None
  end.

Definition catch_ellipsis : catch_clause := λ _,
  Some (error_condition ["simpleError"; "error"; "condition"]
          "c++ exception (unknown reason)").

Definition END_RCPP : list catch_clause :=
  [catch_InterruptedException; catch_std_exception; catch_ellipsis].

Fixpoint first_match (clauses : list catch_clause) (e : exn) : option condition :=
  match clauses with
  | [] => None
  | clause :: rest =>
      match clause e with
      | Some c => Some c
      | None => first_match rest e
      end
  end.

(** BEGIN_RCPP body END_RCPP: a try block around the body. *)
Definition BEGIN_RCPP (body : M SEXP) (clauses : list catch_clause)
  : hstate → outcome * hstate * list event := λ st,
  match body st with
  | (Ok value, st', tr) => (Returned value, st', tr)
  | (Throw e, st', tr) =>
      match first_match clauses e with
      | Some c => (Signalled c, st', tr)
      | None => (Escaped e, st', tr)
      end
  end.

End Rcpp.

(** ** The wrapper *)

(** The six objects the host passes. *)
Record arguments : Type := mk_arguments {
  XSEXP : SEXP;
  no_dims_inSEXP : SEXP;
  perplexity_inSEXP : SEXP;
  theta_inSEXP : SEXP;
  num_threadsSEXP : SEXP;
  max_iterSEXP : SEXP
}.

(** The value of an argument of the call on line 20: a NumericMatrix,
    an int or a double. *)
Inductive argument : Type :=
| Matrix (m : NumericMatrix)
| Integer (n : Z)
| Double (x : double).

(** The arguments of that call, as far as they have been evaluated. *)
Definition converted : Type := param → option argument.

Definition nothing_converted : converted := λ _, None.

Definition store (p : param) (v : argument) (c : converted) : converted :=
  λ q, if decide (q = p) then Some v else c q.

Definition parameters : list param :=
  [P_X; P_no_dims_in; P_perplexity_in; P_theta_in; P_num_threads; P_max_iter].

(** Lines 14 to 19 declare six objects of type InputParameter<T>, whose
    constructor only stores the SEXP; the conversion as<T> is the
    operator T() of InputParameter and runs when the object is passed to
    [Rtsne_cpp] on line 20.  C++ does not fix the order in which the
    arguments of a call are evaluated, so the order is left to the
    compiler: [sequencing] ranks the parameters, and they are converted
    by increasing rank. *)
Definition not_after (sequencing : param → nat) (p q : param) : Prop :=
  (sequencing p ≤ sequencing q)%nat.

Global Instance not_after_dec sequencing p q : Decision (not_after sequencing p q).
Proof. unfold not_after. apply _. Defined.

Definition evaluation_order (sequencing : param → nat) : list param :=
  merge_sort (not_after sequencing) parameters.

Section Wrapper.
Context `{HostCoercion}.
Variable Rtsne_cpp : native.
Variable sequencing : param → nat.

(** InputParameter<T>::operator T() of the object declared for
    parameter [p]: as<T> of the SEXP it stores. *)
Definition input_parameter (a : arguments) (p : param) : M argument :=
  match p with
  | P_X => m ← as_NumericMatrix (XSEXP a); mret (Matrix m)
  | P_no_dims_in => n ← as_int (no_dims_inSEXP a); mret (Integer n)
  | P_perplexity_in => x ← as_double (perplexity_inSEXP a); mret (Double x)
  | P_theta_in => x ← as_double (theta_inSEXP a); mret (Double x)
  | P_num_threads => n ← as_int (num_threadsSEXP a); mret (Integer n)
  | P_max_iter => n ← as_int (max_iterSEXP a); mret (Integer n)
  end.

Fixpoint evaluate (a : arguments) (order : list param) (c : converted)
  : M converted :=
  match order with
  | [] => mret c
  | p :: rest =>
      log (EvAs p);;
      v ← input_parameter a p;
      evaluate a rest (store p v c)
  end.

(** The call itself, once the six arguments have their values.  The
    last case is never reached (see [wrapper_run]). *)
Definition call (c : converted) : M List :=
  match c P_X, c P_no_dims_in, c P_perplexity_in, c P_theta_in,
        c P_num_threads, c P_max_iter with
  | Some (Matrix X), Some (Integer no_dims_in), Some (Double perplexity_in),
    Some (Double theta_in), Some (Integer num_threads),
    Some (Integer max_iter) =>
      λ st,
        match Rtsne_cpp X no_dims_in perplexity_in theta_in num_threads
                max_iter st with
        | (r, st') =>
            (r, st',
             [EvRtsne_cpp X no_dims_in perplexity_in theta_in num_threads
                max_iter st])
        end
  | _, _, _, _, _, _ => throw OtherException
  end.

(** Lines 12 to 21, between BEGIN_RCPP and END_RCPP. *)
Definition body (a : arguments) : M SEXP :=
  (* Rcpp::RObject rcpp_result_gen; *)
  (* Rcpp::RNGScope rcpp_rngScope_gen; *)
  RNGScope (
    (* Rcpp::traits::input_parameter< ... >::type ...(...SEXP); *)
    c ← evaluate a (evaluation_order sequencing) nothing_converted;
    (* rcpp_result_gen = Rcpp::wrap(Rtsne_cpp(X, no_dims_in, perplexity_in,
                                              theta_in, num_threads, max_iter)); *)
    r ← call c;
    let rcpp_result_gen := wrap r in
    (* return rcpp_result_gen; *)
    mret rcpp_result_gen).

Definition Rtsne_multicore_Rtsne_cpp
    (XSEXP no_dims_inSEXP perplexity_inSEXP theta_inSEXP num_threadsSEXP
       max_iterSEXP : SEXP)
  : hstate → outcome * hstate * list event :=
  BEGIN_RCPP
    (body (mk_arguments XSEXP no_dims_inSEXP perplexity_inSEXP theta_inSEXP
             num_threadsSEXP max_iterSEXP))
    END_RCPP.

End Wrapper.

(** ** The native routine, as the specification describes it

    The definition of [Rtsne_cpp] is not part of the file; the wrapper is
    verified for any routine of the declared signature.  Two properties
    of the specification speak about what the routine itself answers, and
    for them the routine is taken as the specification words it. *)

Section NativeFromSpec.
Import IEEE754.

(** The optimisation itself is outside the specification: [engine]
    stands for whatever computes the coordinates (by position) and the
    named diagnostics. *)
Variable engine :
  NumericMatrix → Z → double → double → Z → Z → hstate →
  (nat → double) * list (string * robj).






End NativeFromSpec.


(** ** What the conversions compute

    The value that as<int>, as<double> and as<NumericMatrix> give for an
    object, without the bookkeeping of pointers. *)

Section Values.
Context `{HostCoercion}.

Definition incompatible (o : robj) (target : SEXPTYPE) : exn :=
  not_compatible
    ("Not compatible with requested type: [type=" +:+ type2char o
     +:+ "; target=" +:+ target2char target +:+ "].").

Definition int_value (o : robj) : result Z :=
  if decide (Rf_length o = 1%nat) then
    match integers (data o) with
    | Some v => Ok (default 0 (head v))
    | None => Throw (incompatible o INTSXP)
    end
  else Throw (expecting_a_single_value o).

Definition double_value (o : robj) : result double :=
  if decide (Rf_length o = 1%nat) then
    match reals (data o) with
    | Some v => Ok (default 0 (head v))
    | None => Throw (incompatible o REALSXP)
    end
  else Throw (expecting_a_single_value o).

(** The matrix of doubles that the NumericMatrix points to. *)
Definition matrix_value (o : robj) : result robj :=
  match reals (data o) with
  | Some v =>
      if Rf_isMatrix o then Ok (mk_robj (Real v) (dim o) (names o))
      else Throw not_a_matrix
  | None => Throw (incompatible o REALSXP)
  end.

(** The exception, if any, that converting parameter [p] throws. *)
Definition failure {A : Type} (r : result A) : option exn :=
  match r with
  | Ok _ => None
  | Throw e => Some e
  end.

Definition supplied (a : arguments) (p : param) : SEXP :=
  match p with
  | P_X => XSEXP a
  | P_no_dims_in => no_dims_inSEXP a
  | P_perplexity_in => perplexity_inSEXP a
  | P_theta_in => theta_inSEXP a
  | P_num_threads => num_threadsSEXP a
  | P_max_iter => max_iterSEXP a
  end.

Definition conversion_failure (st : hstate) (a : arguments) (p : param)
  : option exn :=
  let o := object st (supplied a p) in
  match p with
  | P_X => failure (matrix_value o)
  | P_no_dims_in | P_num_threads | P_max_iter => failure (int_value o)
  | P_perplexity_in | P_theta_in => failure (double_value o)
  end.

End Values.

(** The kinds of object that r_cast converts. *)
Definition number_like (t : SEXPTYPE) : bool :=
  match t with
  | REALSXP | RAWSXP | LGLSXP | CPLXSXP | INTSXP => true
  | _ => false
  end.

(** The failures of type conversion (ArgumentTypeError in the words of
    the specification). *)
Definition ArgumentTypeError (e : exn) : Prop :=
  ∃ what, e = Exception "Rcpp::not_compatible" what
          ∨ e = Exception "Rcpp::not_a_matrix" what.

(** Every argument points to an object of the heap. *)
Definition live (st : hstate) (a : arguments) : Prop :=
  ∀ p, is_Some (heap st !! supplied a p).

(** [st'] is [st] with more objects: nothing that existed has changed. *)
Definition grown (st st' : hstate) : Prop :=
  heap st ⊆ heap st'
  ∧ Random_seed st' = Random_seed st
  ∧ generator st' = generator st
  ∧ entropy st' = entropy st
  ∧ elsewhere st' = elsewhere st.


(** The calls of the native routine in a log. *)
Definition is_call (ev : event) : bool :=
  match ev with
  | EvRtsne_cpp _ _ _ _ _ _ _ => true
  | _ => false
  end.

Definition calls (tr : list event) : list event := filter (λ ev, is_call ev = true) tr.

(** The three parts of what a call leaves behind. *)
Definition outcome_of (r : outcome * hstate * list event) : outcome := r.1.1.
Definition state_after (r : outcome * hstate * list event) : hstate := r.1.2.
Definition log_of (r : outcome * hstate * list event) : list event := r.2.

Definition kind_matches (p : param) (v : argument) : Prop :=
  match p, v with
  | P_X, Matrix _ => True
  | (P_no_dims_in | P_num_threads | P_max_iter), Integer _ => True
  | (P_perplexity_in | P_theta_in), Double _ => True
  | _, _ => False
  end.

(** [v] is what converting parameter [p] gives, when the conversion
    starts in [st] and [st'] is a state reached afterwards. *)
Definition converts `{HostCoercion} (st st' : hstate) (a : arguments)
    (p : param) (v : argument) : Prop :=
  match v with
  | Matrix m =>
      p = P_X
      ∧ heap st' !! matrix_sexp m = Some (object st' (matrix_sexp m))
      ∧ matrix_value (object st (XSEXP a)) = Ok (object st' (matrix_sexp m))
      ∧ nrows m = dims_0 (object st' (matrix_sexp m))
      ∧ (if decide (TYPEOF (object st (XSEXP a)) = REALSXP)
         then matrix_sexp m = XSEXP a
         else heap st !! matrix_sexp m = None)
  | Integer n =>
      (p = P_no_dims_in ∨ p = P_num_threads ∨ p = P_max_iter)
      ∧ int_value (object st (supplied a p)) = Ok n
  | Double x =>
      (p = P_perplexity_in ∨ p = P_theta_in)
      ∧ double_value (object st (supplied a p)) = Ok x
  end.

(** The condition that END_RCPP signals for an exception, clause by
    clause (see [first_match_END_RCPP]). *)
Definition condition_of (e : exn) : condition :=
  match e with
  | InterruptedException => interrupt
  | Exception class what =>
      error_condition [class; "C++Error"; "error"; "condition"] what
  | OtherException =>
      error_condition ["simpleError"; "error"; "condition"]
        "c++ exception (unknown reason)"
  end.

(** The six values in the order of the signature. *)
Definition passed (X : NumericMatrix) (no_dims_in : Z)
    (perplexity_in theta_in : double) (num_threads max_iter : Z) (p : param)
  : argument :=
  match p with
  | P_X => Matrix X
  | P_no_dims_in => Integer no_dims_in
  | P_perplexity_in => Double perplexity_in
  | P_theta_in => Double theta_in
  | P_num_threads => Integer num_threads
  | P_max_iter => Integer max_iter
  end.

(** How the call ends once the native routine has answered. *)
Definition ending (r : result List) : outcome :=
  match r with
  | Ok l => Returned (wrap l)
  | Throw e => Signalled (condition_of e)
  end.

(** The type that parameter [p] has on the native side (line 9): the
    element type of a NumericMatrix and the type of a double are
    REALSXP, the type of an int is INTSXP. *)
Definition native_type (p : param) : SEXPTYPE :=
  match p with
  | P_X | P_perplexity_in | P_theta_in => REALSXP
  | P_no_dims_in | P_num_threads | P_max_iter => INTSXP
  end.

(** The objects that the conversion of parameter [p] takes: a matrix of
    numbers for X, a single number for each of the others. *)
Definition acceptable (p : param) (o : robj) : bool :=
  number_like (TYPEOF o) &&
  match p with
  | P_X => Rf_isMatrix o
  | _ => bool_decide (Rf_length o = 1%nat)
  end.

(** The parameters whose argument does not have the native type, and so
    is converted into a new object. *)
Definition to_convert (st : hstate) (a : arguments) : list param :=
  filter (λ p, TYPEOF (object st (supplied a p)) ≠ native_type p) parameters.

(** ** Concrete runs

    A small session of the host, some native routines of the declared
    signature and two evaluation orders, on which the wrapper is run. *)

Module Sample.

Definition half : double := 4602678819172646912.
Definition one : double := 4607182418800017408.
Definition two : double := 4611686018427387904.
Definition three : double := 4613937818241073152.

(** The objects of the session, by pointer. *)
Definition real_matrix : robj :=
  mk_robj (Real [one; two; three; one; two; three; half; half]) (Some [4; 2]) None.
Definition integer_matrix : robj :=
  mk_robj (Int [1; 2; 3; 1; 2; 3; 0; 0]) (Some [4; 2]) None.
Definition no_rows : robj := mk_robj (Real []) (Some [0; 2]) None.
Definition no_columns : robj := mk_robj (Real []) (Some [3; 0]) None.

(** The pointers the host holds. *)
Definition p_matrix : SEXP := 1%positive.
Definition p_dims : SEXP := 2%positive.
Definition p_perplexity : SEXP := 3%positive.
Definition p_theta : SEXP := 4%positive.
Definition p_threads : SEXP := 5%positive.
Definition p_iterations : SEXP := 6%positive.
Definition p_string : SEXP := 7%positive.
Definition p_integer_matrix : SEXP := 8%positive.
Definition p_real_two : SEXP := 9%positive.
Definition p_no_rows : SEXP := 10%positive.
Definition p_null : SEXP := 11%positive.
Definition p_no_columns : SEXP := 12%positive.

Definition objects : gmap SEXP robj :=
  list_to_map
    [(p_matrix, real_matrix);
     (p_dims, mk_robj (Int [2]) None None);
     (p_perplexity, mk_robj (Real [one]) None None);
     (p_theta, mk_robj (Real [half]) None None);
     (p_threads, mk_robj (Int [1]) None None);
     (p_iterations, mk_robj (Int [100]) None None);
     (p_string, mk_robj (Str ["two"]) None None);
     (p_integer_matrix, integer_matrix);
     (p_real_two, mk_robj (Real [two]) None None);
     (p_no_rows, no_rows);
     (p_null, R_NilObject);
     (p_no_columns, no_columns)].

(** A session in which no random number has been drawn yet, and one
    with a seed. *)
Definition fresh_session : hstate := mk_hstate objects None 0 42 0.
Definition session : hstate := mk_hstate objects (Some 7) 0 42 0.

(** Arguments evaluated from left to right, and from right to left. *)
Definition left_to_right (p : param) : nat :=
  match p with
  | P_X => 0 | P_no_dims_in => 1 | P_perplexity_in => 2 | P_theta_in => 3
  | P_num_threads => 4 | P_max_iter => 5
  end.
Definition right_to_left (p : param) : nat := 5 - left_to_right p.

(** A routine that answers an empty list and touches nothing else. *)
Definition quiet : native := λ _ _ _ _ _ _ st,
  match alloc (mk_robj (Vec []) None None) st with
  | (Ok l, st', _) => (Ok (mk_List l), st')
  | (Throw e, st', _) => (Throw e, st')
  end.

(** A routine that draws one random number. *)
Definition drawing : native := λ X d p t n m st,
  quiet X d p t n m
    (mk_hstate (heap st) (Random_seed st) (generator st + 1) (entropy st)
       (elsewhere st)).

(** A stub that records the theta it receives, in the part of the
    state that stands for everything else. *)
Definition recording : native := λ X d p t n m st,
  quiet X d p t n m
    (mk_hstate (heap st) (Random_seed st) (generator st) (entropy st) t).

(** A routine that overwrites the matrix it was given. *)
Definition scribbling : native := λ X d p t n m st,
  quiet X d p t n m
    (set_heap (<[matrix_sexp X := mk_robj (Real []) (Some [0; 0]) None]> (heap st)) st).

(** Routines that fail. *)
Definition out_of_memory : native := λ _ _ _ _ _ _ st,
  (Throw (Exception "std::bad_alloc" "std::bad_alloc"), st).
Definition interrupted : native := λ _ _ _ _ _ _ st,
  (Throw InterruptedException, st).


End Sample.

(** * Properties *)

(** ** States that only grow *)

Lemma grown_refl st : grown st st.
Proof. by repeat split. Qed.

Lemma grown_trans st1 st2 st3 : grown st1 st2 → grown st2 st3 → grown st1 st3.
Proof.
  intros (Hh & Hs & Hg & He & Hw) (Hh' & Hs' & Hg' & He' & Hw').
  repeat split; try congruence. by etrans.
Qed.

Lemma grown_lookup st st' x o :
  grown st st' → heap st !! x = Some o → heap st' !! x = Some o.
Proof. intros (Hh & _) Hx. by eapply lookup_weaken. Qed.

Lemma grown_object st st' x :
  grown st st' → is_Some (heap st !! x) → object st' x = object st x.
Proof.
  intros Hg [o Ho]. unfold object.
  by rewrite (grown_lookup _ _ _ _ Hg Ho), Ho.
Qed.

Lemma grown_fresh st st' x :
  grown st st' → heap st' !! x = None → heap st !! x = None.
Proof.
  intros (Hh & _) Hx. destruct (heap st !! x) as [o|] eqn:Ho; [|done].
  by rewrite (lookup_weaken _ _ _ _ Ho Hh) in Hx.
Qed.

Lemma object_live st x o : heap st !! x = Some o → object st x = o.
Proof. intros Hx. unfold object. by rewrite Hx. Qed.

Lemma alloc_run (o : robj) (st : hstate) :
  ∃ x st', alloc o st = (Ok x, st', [])
           ∧ heap st !! x = None
           ∧ heap st' = <[x := o]> (heap st)
           ∧ grown st st'.
Proof.
  assert (Hx : heap st !! fresh (dom (heap st)) = None).
  { apply not_elem_of_dom, is_fresh. }
  eexists _, _. split; [reflexivity|]. split; [done|]. split; [done|].
  repeat split. simpl. by apply insert_subseteq.
Qed.


(** ** The conversions *)

Ltac unfold_M :=
  unfold mbind, mret, M_bind, M_ret, read, throw, log in *.

Lemma object_inserted st st' y o :
  heap st' = <[y := o]> (heap st) → object st' y = o.
Proof. intros Hh. unfold object. by rewrite Hh, lookup_insert_eq. Qed.

Section Conversions.
Context `{HostCoercion}.

(** r_cast returns the pointer it was given, or a pointer to a new
    object, or throws. *)
Lemma r_cast_run target x st :
  (r_cast target x st = (Ok x, st, []) ∧ TYPEOF (object st x) = target)
  ∨ (∃ y st', r_cast target x st = (Ok y, st', [])
        ∧ TYPEOF (object st x) ≠ target
        ∧ number_like (TYPEOF (object st x)) = true
        ∧ heap st !! y = None
        ∧ heap st' = <[y := Rf_coerceVector (object st x) target]> (heap st)
        ∧ grown st st')
  ∨ (r_cast target x st = (Throw (incompatible (object st x) target), st, [])
        ∧ TYPEOF (object st x) ≠ target
        ∧ number_like (TYPEOF (object st x)) = false).
Proof.
  unfold r_cast. unfold_M.
  destruct (decide (TYPEOF (object st x) = target)) as [Ht|Ht]; [by left|].
  right.
  destruct (alloc_run (Rf_coerceVector (object st x) target) st)
    as (y & st' & Ha & Hy & Hh & Hg).
  destruct (TYPEOF (object st x)) eqn:Ety.
  all: try (right; by repeat split).
  all: left; exists y, st'; rewrite Ha; by split_and!.
Qed.

Lemma as_int_run x st :
  ∃ st', as_int x st = (int_value (object st x), st', []) ∧ grown st st'.
Proof.
  unfold as_int, int_value. unfold_M.
  destruct (decide (Rf_length (object st x) = 1%nat)) as [Hl|Hl];
    [|eexists; split; [reflexivity|apply grown_refl]].
  destruct (r_cast_run INTSXP x st)
    as [(Hr & Ht)|[(y & st' & Hr & Hne & Hin & Hy & Hh & Hg)|(Hr & Hne & Hnin)]];
    rewrite Hr.
  - exists st. split; [|apply grown_refl].
    destruct (object st x) as [[] ? ?]; try discriminate Ht.
    simpl. by destruct v.
  - exists st'. split; [|done].
    rewrite (object_inserted _ _ _ _ Hh).
    destruct (object st x) as [[] ? ?]; simpl in *; try done; by destruct v.
  - exists st. split; [|apply grown_refl].
    by destruct (object st x) as [[] ? ?].
Qed.

Lemma as_double_run x st :
  ∃ st', as_double x st = (double_value (object st x), st', []) ∧ grown st st'.
Proof.
  unfold as_double, double_value. unfold_M.
  destruct (decide (Rf_length (object st x) = 1%nat)) as [Hl|Hl];
    [|eexists; split; [reflexivity|apply grown_refl]].
  destruct (r_cast_run REALSXP x st)
    as [(Hr & Ht)|[(y & st' & Hr & Hne & Hin & Hy & Hh & Hg)|(Hr & Hne & Hnin)]];
    rewrite Hr.
  - exists st. split; [|apply grown_refl].
    destruct (object st x) as [[] ? ?]; try discriminate Ht.
    simpl. by destruct v.
  - exists st'. split; [|done].
    rewrite (object_inserted _ _ _ _ Hh).
    destruct (object st x) as [[] ? ?]; simpl in *; try done; by destruct v.
  - exists st. split; [|apply grown_refl].
    by destruct (object st x) as [[] ? ?].
Qed.

(** as<NumericMatrix>: a matrix of doubles is passed as it is, any
    other matrix of numbers as a new object, the caller's one being
    left alone. *)
Lemma as_NumericMatrix_run x st :
  ∃ st', grown st st' ∧
    match matrix_value (object st x) with
    | Throw e => as_NumericMatrix x st = (Throw e, st', [])
    | Ok o' =>
        ∃ y, as_NumericMatrix x st = (Ok (mk_NumericMatrix y (dims_0 o')), st', [])
             ∧ heap st' !! y = Some o'
             ∧ (if decide (TYPEOF (object st x) = REALSXP)
                then y = x ∧ st' = st
                else heap st !! y = None ∧ heap st' = <[y := o']> (heap st))
    end.
Proof.
  unfold as_NumericMatrix, matrix_value. unfold_M.
  destruct (r_cast_run REALSXP x st)
    as [(Hr & Ht)|[(y & st' & Hr & Hne & Hin & Hy & Hh & Hg)|(Hr & Hne & Hnin)]];
    rewrite Hr.
  - exists st. split; [apply grown_refl|].
    unfold object in *.
    destruct (heap st !! x) as [[[] dm nm]|] eqn:Hx; try discriminate Ht.
    simpl. destruct (Rf_isMatrix _); [|done].
    exists x. by rewrite Hx.
  - exists st'. split; [done|].
    rewrite (object_inserted _ _ _ _ Hh).
    destruct (decide _) as [|_]; [done|].
    destruct (object st x) as [[] dm nm] eqn:Ho; simpl in *; try done.
    all: unfold Rf_isMatrix; simpl; destruct dm as [[|? [|? [|? ?]]]|]; simpl; try done.
    all: exists y; by rewrite Hh, lookup_insert_eq.
  - exists st. split; [apply grown_refl|].
    by destruct (object st x) as [[] ? ?].
Qed.

End Conversions.

(** ** The evaluation of the arguments *)

Lemma evaluation_order_Permutation sequencing :
  evaluation_order sequencing ≡ₚ parameters.
Proof. apply merge_sort_Permutation. Qed.

Lemma evaluation_order_all sequencing p : p ∈ evaluation_order sequencing.
Proof.
  rewrite evaluation_order_Permutation. unfold parameters.
  destruct p; set_solver.
Qed.

Lemma first_match_END_RCPP e : first_match END_RCPP e = Some (condition_of e).
Proof. by destruct e. Qed.

Section Evaluation.
Context `{HostCoercion}.

Lemma int_value_failure o e : int_value o = Throw e → ArgumentTypeError e.
Proof.
  unfold int_value. destruct (decide _); [destruct (integers _)|];
    intros [= <-]; eexists; by left.
Qed.

Lemma double_value_failure o e : double_value o = Throw e → ArgumentTypeError e.
Proof.
  unfold double_value. destruct (decide _); [destruct (reals _)|];
    intros [= <-]; eexists; by left.
Qed.

Lemma matrix_value_failure o e : matrix_value o = Throw e → ArgumentTypeError e.
Proof.
  unfold matrix_value. destruct (reals _); [destruct (Rf_isMatrix _)|];
    intros [= <-]; eexists; [by right|by left].
Qed.

Lemma conversion_failure_ArgumentTypeError st a p e :
  conversion_failure st a p = Some e → ArgumentTypeError e.
Proof.
  unfold conversion_failure, failure. intros He.
  destruct p;
    match type of He with
    | match ?r with _ => _ end = _ => destruct r eqn:Hr; [done|]
    end; injection He as ->;
    eauto using int_value_failure, double_value_failure, matrix_value_failure.
Qed.

Lemma conversion_failure_earlier st0 st a p :
  live st0 a → grown st0 st →
  conversion_failure st a p = conversion_failure st0 a p.
Proof.
  intros Hl Hg. unfold conversion_failure.
  by rewrite (grown_object _ _ _ Hg (Hl p)).
Qed.

Lemma converts_later st st1 st2 a p v :
  converts st st1 a p v → grown st1 st2 → converts st st2 a p v.
Proof.
  destruct v as [m| |]; [|done..].
  intros (-> & Hm & Hv & Hr & Ha) Hg.
  assert (Ho : object st2 (matrix_sexp m) = object st1 (matrix_sexp m)).
  { apply grown_object; [done|by eexists]. }
  unfold converts. rewrite Ho. split_and!; try done.
  by eapply grown_lookup.
Qed.

Lemma converts_earlier st0 st st' a p v :
  live st0 a → grown st0 st →
  converts st st' a p v → converts st0 st' a p v.
Proof.
  intros Hl Hg. unfold converts.
  rewrite (grown_object _ _ _ Hg (Hl p)).
  destruct v as [m| |]; [|done..].
  intros (-> & Hm & Hv & Hr & Ha).
  pose proof (grown_object _ _ _ Hg (Hl P_X)) as Ho. simpl in Ho.
  rewrite Ho in Hv, Ha. split_and!; try done.
  destruct (decide _); [done|]. by eapply grown_fresh.
Qed.

Lemma converts_kind st st' a p v : converts st st' a p v → kind_matches p v.
Proof.
  destruct v; simpl.
  - by intros (-> & _).
  - by intros ([-> | [-> | ->]] & _).
  - by intros ([-> | ->] & _).
Qed.

(** One conversion: it logs nothing by itself, leaves what exists
    alone, and gives the value or the failure of the object it reads. *)
Lemma input_parameter_run a p st :
  ∃ r st', input_parameter a p st = (r, st', []) ∧ grown st st' ∧
    match r with
    | Ok v => conversion_failure st a p = None ∧ converts st st' a p v
    | Throw e => conversion_failure st a p = Some e
    end.
Proof.
  unfold conversion_failure, input_parameter.
  destruct p; simpl.
  - destruct (as_NumericMatrix_run (XSEXP a) st) as (st' & Hg & Hm).
    unfold_M.
    destruct (matrix_value (object st (XSEXP a))) as [o'|e] eqn:Hv.
    + destruct Hm as (y & -> & Hy & Hal).
      eexists _, _. split; [reflexivity|]. split; [done|]. split; [done|].
      simpl. rewrite (object_live _ _ _ Hy). split_and!; try done.
      destruct (decide _); [by destruct Hal|by destruct Hal].
    + rewrite Hm. by eexists _, _.
  - destruct (as_int_run (no_dims_inSEXP a) st) as (st' & Hr & Hg).
    unfold_M. rewrite Hr.
    destruct (int_value _) eqn:Hv; eexists _, _; (split; [reflexivity|]);
      (split; [done|]); simpl; [|done].
    split; [done|]. split; [by left|done].
  - destruct (as_double_run (perplexity_inSEXP a) st) as (st' & Hr & Hg).
    unfold_M. rewrite Hr.
    destruct (double_value _) eqn:Hv; eexists _, _; (split; [reflexivity|]);
      (split; [done|]); simpl; [|done].
    split; [done|]. split; [by left|done].
  - destruct (as_double_run (theta_inSEXP a) st) as (st' & Hr & Hg).
    unfold_M. rewrite Hr.
    destruct (double_value _) eqn:Hv; eexists _, _; (split; [reflexivity|]);
      (split; [done|]); simpl; [|done].
    split; [done|]. split; [by right|done].
  - destruct (as_int_run (num_threadsSEXP a) st) as (st' & Hr & Hg).
    unfold_M. rewrite Hr.
    destruct (int_value _) eqn:Hv; eexists _, _; (split; [reflexivity|]);
      (split; [done|]); simpl; [|done].
    split; [done|]. split; [by right; left|done].
  - destruct (as_int_run (max_iterSEXP a) st) as (st' & Hr & Hg).
    unfold_M. rewrite Hr.
    destruct (int_value _) eqn:Hv; eexists _, _; (split; [reflexivity|]);
      (split; [done|]); simpl; [|done].
    split; [done|]. split; [by right; right|done].
Qed.

(** The conversions in a given order: either all succeed, and every
    parameter of the list has its value, or the first failure ends
    the evaluation. *)
Lemma evaluate_run a l : ∀ c st,
  ∃ r st' tr, evaluate a l c st = (r, st', tr) ∧ grown st st' ∧
    match r with
    | Ok c' =>
        tr = EvAs <$> l
        ∧ (∀ p, p ∈ l → ∃ v sta, c' p = Some v ∧ grown st sta ∧ grown sta st'
                                 ∧ conversion_failure sta a p = None
                                 ∧ converts sta st' a p v)
        ∧ (∀ p, p ∉ l → c' p = c p)
    | Throw e =>
        ∃ l1 p l2 sta, l = l1 ++ p :: l2 ∧ tr = EvAs <$> (l1 ++ [p])
                       ∧ grown st sta ∧ conversion_failure sta a p = Some e
    end.
Proof.
  induction l as [|p rest IH]; intros c st.
  { exists (Ok c), st, []. split; [done|]. split; [apply grown_refl|].
    split; [done|]. split; [|done]. intros p Hp. by apply elem_of_nil in Hp. }
  destruct (input_parameter_run a p st) as (r1 & st1 & Hr1 & Hg1 & Hc1).
  simpl. unfold_M. rewrite Hr1.
  destruct r1 as [v|e].
  - destruct Hc1 as [Hf1 Hv1].
    destruct (IH (store p v c) st1) as (r & st' & tr & Hr & Hg & Hc).
    rewrite Hr. exists r, st', (EvAs p :: tr).
    split; [done|]. split; [by eapply grown_trans|].
    destruct r as [c'|e].
    + destruct Hc as (-> & Hin & Hout). split; [done|]. split.
      * intros q Hq. destruct (decide (q ∈ rest)) as [Hqr|Hqr].
        { destruct (Hin q Hqr) as (w & sta & Hw & Ha1 & Ha2 & Hfa & Hca).
          exists w, sta. split_and!; eauto using grown_trans. }
        apply elem_of_cons in Hq as [->|Hq]; [|done].
        exists v, st. rewrite (Hout p Hqr). unfold store.
        rewrite decide_True by done.
        split_and!; eauto using grown_refl, grown_trans, converts_later.
      * intros q Hq. apply not_elem_of_cons in Hq as [Hqp Hqr].
        rewrite (Hout q Hqr). unfold store. by rewrite decide_False.
    + destruct Hc as (l1 & q & l2 & sta & -> & -> & Ha & Hfa).
      exists (p :: l1), q, l2, sta. split_and!; eauto using grown_trans.
  - exists (Throw e), st1, [EvAs p]. split; [done|]. split; [done|].
    exists [], p, rest, st. split_and!; eauto using grown_refl.
Qed.
End Evaluation.

(** ** One call, step by step *)

Section Run.
Context `{HostCoercion}.
Variable Rtsne_cpp : native.
Variable sequencing : param → nat.

Lemma converts_passed st st' a p v :
  converts st st' a p v →
  match p with
  | P_X => ∃ m, v = Matrix m
  | P_no_dims_in | P_num_threads | P_max_iter => ∃ n, v = Integer n
  | P_perplexity_in | P_theta_in => ∃ x, v = Double x
  end.
Proof.
  intros Hk%converts_kind. destruct p, v; simpl in Hk; try done; by eexists.
Qed.

(** What one call does, step by step. *)
Lemma wrapper_run x1 x2 x3 x4 x5 x6 st :
  let a := mk_arguments x1 x2 x3 x4 x5 x6 in
  let st0 := GetRNGstate st in
  (∃ e l1 p l2 sta st1,
      evaluation_order sequencing = l1 ++ p :: l2
      ∧ grown st0 sta ∧ grown st0 st1
      ∧ conversion_failure sta a p = Some e
      ∧ Rtsne_multicore_Rtsne_cpp Rtsne_cpp sequencing x1 x2 x3 x4 x5 x6 st
        = (Signalled (condition_of e), PutRNGstate st1,
           EvGetRNGstate :: (EvAs <$> (l1 ++ [p])) ++ [EvPutRNGstate]))
  ∨ (∃ X d p t n m st1,
      grown st0 st1
      ∧ (∀ q, ∃ sta, grown st0 sta ∧ grown sta st1
                     ∧ conversion_failure sta a q = None
                     ∧ converts sta st1 a q (passed X d p t n m q))
      ∧ Rtsne_multicore_Rtsne_cpp Rtsne_cpp sequencing x1 x2 x3 x4 x5 x6 st
        = (ending (Rtsne_cpp X d p t n m st1).1,
           PutRNGstate (Rtsne_cpp X d p t n m st1).2,
           EvGetRNGstate :: (EvAs <$> evaluation_order sequencing)
             ++ [EvRtsne_cpp X d p t n m st1; EvPutRNGstate])).
Proof.
  intros a st0.
  destruct (evaluate_run a (evaluation_order sequencing) nothing_converted st0)
    as (r & st1 & tr & Hr & Hg & Hc).
  unfold Rtsne_multicore_Rtsne_cpp, BEGIN_RCPP, body, RNGScope.
  fold a. fold st0. unfold_M. rewrite Hr.
  destruct r as [c|e].
  - right. destruct Hc as (-> & Hin & _).
    assert (Hall : ∀ q, ∃ v sta, c q = Some v ∧ grown st0 sta ∧ grown sta st1
                         ∧ conversion_failure sta a q = None
                         ∧ converts sta st1 a q v).
    { intros q. apply Hin, evaluation_order_all. }
    destruct (Hall P_X) as (v1 & s1 & Hc1 & ? & ? & ? & Hv1).
    destruct (Hall P_no_dims_in) as (v2 & s2 & Hc2 & ? & ? & ? & Hv2).
    destruct (Hall P_perplexity_in) as (v3 & s3 & Hc3 & ? & ? & ? & Hv3).
    destruct (Hall P_theta_in) as (v4 & s4 & Hc4 & ? & ? & ? & Hv4).
    destruct (Hall P_num_threads) as (v5 & s5 & Hc5 & ? & ? & ? & Hv5).
    destruct (Hall P_max_iter) as (v6 & s6 & Hc6 & ? & ? & ? & Hv6).
    destruct (converts_passed _ _ _ _ _ Hv1) as [X ->].
    destruct (converts_passed _ _ _ _ _ Hv2) as [d ->].
    destruct (converts_passed _ _ _ _ _ Hv3) as [p ->].
    destruct (converts_passed _ _ _ _ _ Hv4) as [t ->].
    destruct (converts_passed _ _ _ _ _ Hv5) as [n ->].
    destruct (converts_passed _ _ _ _ _ Hv6) as [m ->].
    exists X, d, p, t, n, m, st1. split; [done|]. split.
    { intros []; [exists s1|exists s2|exists s3|exists s4|exists s5|exists s6];
        by split_and!. }
    unfold call. rewrite Hc1, Hc2, Hc3, Hc4, Hc5, Hc6.
    destruct (Rtsne_cpp X d p t n m st1) as [[l|e] st2]; simpl.
    + by rewrite <- app_assoc.
    + destruct e; by rewrite <- app_assoc.
  - left. destruct Hc as (l1 & p & l2 & sta & Hl & -> & Ha & Hf).
    exists e, l1, p, l2, sta, st1. split_and!; try done.
    by destruct e.
Qed.
End Run.

(** ** The log of a call *)

Lemma calls_conversions (l : list param) : calls (EvAs <$> l) = [].
Proof. by induction l. Qed.

Lemma calls_failed (l : list param) :
  calls (EvGetRNGstate :: (EvAs <$> l) ++ [EvPutRNGstate]) = [].
Proof.
  unfold calls. rewrite filter_cons_False by done.
  rewrite filter_app. fold (calls (EvAs <$> l)). by rewrite calls_conversions.
Qed.

Lemma calls_delegated (l : list param) X d p t n m entry :
  calls (EvGetRNGstate :: (EvAs <$> l) ++ [EvRtsne_cpp X d p t n m entry; EvPutRNGstate])
  = [EvRtsne_cpp X d p t n m entry].
Proof.
  unfold calls. rewrite filter_cons_False by done.
  rewrite filter_app. fold (calls (EvAs <$> l)). by rewrite calls_conversions.
Qed.

Lemma elem_of_calls ev tr : ev ∈ tr → is_call ev = true → ev ∈ calls tr.
Proof. intros. by apply list_elem_of_filter. Qed.

Section Stability.
Context `{HostCoercion}.

(** Under [live], the failure of a conversion does not depend on when
    it runs. *)
Lemma conversion_failure_stable st sta a p :
  live st a → grown (GetRNGstate st) sta →
  conversion_failure sta a p = conversion_failure st a p.
Proof.
  intros Hl Hg.
  by rewrite (conversion_failure_earlier (GetRNGstate st) sta a p).
Qed.

Lemma converts_stable st sta st1 a p v :
  live st a → grown (GetRNGstate st) sta →
  converts sta st1 a p v → converts st st1 a p v.
Proof.
  intros Hl Hg Hc.
  by apply (converts_earlier (GetRNGstate st) sta st1 a p v).
Qed.

End Stability.

Lemma call_in_log ev (l : list param) X d p t n m entry :
  ev ∈ EvGetRNGstate :: (EvAs <$> l) ++ [EvRtsne_cpp X d p t n m entry; EvPutRNGstate] →
  is_call ev = true →
  ev = EvRtsne_cpp X d p t n m entry.
Proof.
  intros Hin Hc. apply (elem_of_calls _ _ Hin) in Hc.
  rewrite calls_delegated in Hc. by apply list_elem_of_singleton in Hc.
Qed.

Lemma no_call_in_log ev (l : list param) :
  ev ∈ EvGetRNGstate :: (EvAs <$> l) ++ [EvPutRNGstate] → is_call ev = false.
Proof.
  intros Hin. destruct (is_call ev) eqn:Hc; [|done].
  apply (elem_of_calls _ _ Hin) in Hc.
  rewrite calls_failed in Hc. by apply elem_of_nil in Hc.
Qed.

Section Live.
Context `{HostCoercion}.
Variable Rtsne_cpp : native.
Variable sequencing : param → nat.

(** [wrapper_run] for arguments that point into the heap: the
    conversions are those of the objects the caller supplied. *)
Lemma wrapper_run_live x1 x2 x3 x4 x5 x6 st :
  let a := mk_arguments x1 x2 x3 x4 x5 x6 in
  live st a →
  (∃ e q l1 l2 st1,
      evaluation_order sequencing = l1 ++ q :: l2
      ∧ grown (GetRNGstate st) st1
      ∧ conversion_failure st a q = Some e
      ∧ Rtsne_multicore_Rtsne_cpp Rtsne_cpp sequencing x1 x2 x3 x4 x5 x6 st
        = (Signalled (condition_of e), PutRNGstate st1,
           EvGetRNGstate :: (EvAs <$> (l1 ++ [q])) ++ [EvPutRNGstate]))
  ∨ (∃ X d p t n m st1,
      grown (GetRNGstate st) st1
      ∧ (∀ q, conversion_failure st a q = None
              ∧ converts st st1 a q (passed X d p t n m q))
      ∧ Rtsne_multicore_Rtsne_cpp Rtsne_cpp sequencing x1 x2 x3 x4 x5 x6 st
        = (ending (Rtsne_cpp X d p t n m st1).1,
           PutRNGstate (Rtsne_cpp X d p t n m st1).2,
           EvGetRNGstate :: (EvAs <$> evaluation_order sequencing)
             ++ [EvRtsne_cpp X d p t n m st1; EvPutRNGstate])).
Proof.
  intros a Hl.
  destruct (wrapper_run Rtsne_cpp sequencing x1 x2 x3 x4 x5 x6 st)
    as [(e & l1 & p & l2 & sta & st1 & Ho & Ha & Hg & Hf & Hr)
       |(X & d & p & t & n & m & st1 & Hg & Hall & Hr)];
    fold a in Hf || fold a in Hall.
  - left. exists e, p, l1, l2, st1.
    rewrite (conversion_failure_stable st sta a p Hl Ha) in Hf. by split_and!.
  - right. exists X, d, p, t, n, m, st1. split_and!; try done.
    intros q. destruct (Hall q) as (sta & Ha & _ & Hf & Hc).
    rewrite (conversion_failure_stable st sta a q Hl Ha) in Hf.
    split; [done|]. by eapply converts_stable.
Qed.
End Live.

(** ** The conditions signalled to the host *)

Lemma condition_of_error e :
  e ≠ InterruptedException →
  ∃ classes message, condition_of e = error_condition classes message
                     ∧ "error" ∈ classes.
Proof.
  destruct e; [done| |]; intros _; eexists _, _; (split; [reflexivity|]);
    set_solver.
Qed.

Lemma matrix_value_coerced `{HostCoercion} o o' :
  matrix_value o = Ok o' → o' = Rf_coerceVector o REALSXP.
Proof.
  unfold matrix_value, Rf_coerceVector.
  destruct (reals (data o)); [|done]. destruct (Rf_isMatrix o); [|done].
  by intros [= <-].
Qed.

(** ** The native routine of the specification *)

Section Spec.
Import IEEE754.
Variable engine :
  NumericMatrix → Z → double → double → Z → Z → hstate →
  (nat → double) * list (string * robj).




End Spec.


(** * The claims *)

Import Sample.

(** When every argument converts, the native routine is called. *)
Lemma call_when_all_convert `{HostCoercion}
    (Rtsne_cpp : native) (sequencing : param → nat)
    (x1 x2 x3 x4 x5 x6 : SEXP) (st : hstate) :
  let a := mk_arguments x1 x2 x3 x4 x5 x6 in
  live st a →
  (∀ q, conversion_failure st a q = None) →
  ∃ X d p t n m entry,
    EvRtsne_cpp X d p t n m entry
      ∈ log_of (Rtsne_multicore_Rtsne_cpp Rtsne_cpp sequencing x1 x2 x3 x4 x5 x6 st).
Proof.
  intros a Hl Hnone.
  destruct (wrapper_run_live Rtsne_cpp sequencing x1 x2 x3 x4 x5 x6 st Hl)
    as [(e & q & l1 & l2 & st1 & Ho & Hg & Hf & Hr)
       |(X & d & p & t & n & m & st1 & Hg & Hall & Hr)];
    fold a in Hf || fold a in Hall.
  { by rewrite Hnone in Hf. }
  exists X, d, p, t, n, m, st1. rewrite Hr. unfold log_of. simpl.
  rewrite elem_of_cons, elem_of_app, elem_of_cons. right. right. by left.
Qed.

(** When every argument converts, the call is the call of the native
    routine on the converted values: it ends as the routine ends and
    leaves the state the routine left. *)
Lemma delegated_run `{HostCoercion}
    (Rtsne_cpp : native) (sequencing : param → nat)
    (x1 x2 x3 x4 x5 x6 : SEXP) (st : hstate) :
  let a := mk_arguments x1 x2 x3 x4 x5 x6 in
  live st a →
  (∀ q, conversion_failure st a q = None) →
  ∃ X d p t n m entry,
    grown (GetRNGstate st) entry
    ∧ (∀ q, converts st entry a q (passed X d p t n m q))
    ∧ Rtsne_multicore_Rtsne_cpp Rtsne_cpp sequencing x1 x2 x3 x4 x5 x6 st
      = (ending (Rtsne_cpp X d p t n m entry).1,
         PutRNGstate (Rtsne_cpp X d p t n m entry).2,
         EvGetRNGstate :: (EvAs <$> evaluation_order sequencing)
           ++ [EvRtsne_cpp X d p t n m entry; EvPutRNGstate]).
Proof.
  intros a Hl Hnone.
  destruct (wrapper_run_live Rtsne_cpp sequencing x1 x2 x3 x4 x5 x6 st Hl)
    as [(e & q & l1 & l2 & st1 & Ho & Hg & Hf & Hr)
       |(X & d & p & t & n & m & st1 & Hg & Hall & Hr)];
    fold a in Hf || fold a in Hall.
  { by rewrite Hnone in Hf. }
  exists X, d, p, t, n, m, st1. split; [done|]. split; [|done].
  intros q. apply Hall.
Qed.

(** A call that is in the log is the call the wrapper made: the wrapper
    ends as the routine ended on these very arguments. *)
Lemma logged_call_run `{HostCoercion}
    (Rtsne_cpp : native) (sequencing : param → nat)
    (x1 x2 x3 x4 x5 x6 : SEXP) (st : hstate) X d p t n m entry :
  let r := Rtsne_multicore_Rtsne_cpp Rtsne_cpp sequencing x1 x2 x3 x4 x5 x6 st in
  EvRtsne_cpp X d p t n m entry ∈ log_of r →
  calls (log_of r) = [EvRtsne_cpp X d p t n m entry]
  ∧ outcome_of r = ending (Rtsne_cpp X d p t n m entry).1
  ∧ state_after r = PutRNGstate (Rtsne_cpp X d p t n m entry).2.
Proof.
  intros r Hin. subst r.
  destruct (wrapper_run Rtsne_cpp sequencing x1 x2 x3 x4 x5 x6 st)
    as [(e' & l1 & q & l2 & sta & st1 & Ho & Ha & Hg & Hf & Hr)
       |(X' & d' & p' & t' & n' & m' & st1 & Hg & Hall & Hr)];
    rewrite Hr in Hin |- *; unfold log_of, outcome_of, state_after in *; simpl in *.
  - by apply no_call_in_log in Hin.
  - apply call_in_log in Hin; [|done]. injection Hin as -> -> -> -> -> -> ->.
    split; [apply calls_delegated|done].
Qed.




(** C2.  For arguments that point to objects of the host: when the
    six arguments convert, the call is the call of [Rtsne_cpp] on the
    converted values and on nothing else: it ends as the routine ends on
    them and leaves the state the routine leaves, so that whatever the
    routine does with what it receives shows in the result.  The five
    scalars are the values that as<int> and as<double> give for the
    objects the caller supplied: a double supplied for theta or
    perplexity arrives with the same 64 bits, an integer supplied for a
    count arrives as that integer.  The wrapper validates nothing: as
    soon as the six arguments convert, the routine is applied. *)
Theorem C2_arguments_passed_as_converted `{HostCoercion}
    (Rtsne_cpp : native) (sequencing : param → nat)
    (x1 x2 x3 x4 x5 x6 : SEXP) (st : hstate) :
  let a := mk_arguments x1 x2 x3 x4 x5 x6 in
  let r := Rtsne_multicore_Rtsne_cpp Rtsne_cpp sequencing x1 x2 x3 x4 x5 x6 st in
  live st a →
  ((∀ q, conversion_failure st a q = None) →
     ∃ X d p t n m entry,
       calls (log_of r) = [EvRtsne_cpp X d p t n m entry]
       ∧ outcome_of r = ending (Rtsne_cpp X d p t n m entry).1
       ∧ state_after r = PutRNGstate (Rtsne_cpp X d p t n m entry).2
       ∧ int_value (object st x2) = Ok d
       ∧ double_value (object st x3) = Ok p
       ∧ double_value (object st x4) = Ok t
       ∧ int_value (object st x5) = Ok n
       ∧ int_value (object st x6) = Ok m
       ∧ (∀ b dm nm, heap st !! x4 = Some (mk_robj (Real [b]) dm nm) → t = b)
       ∧ (∀ b dm nm, heap st !! x3 = Some (mk_robj (Real [b]) dm nm) → p = b)
       ∧ (∀ k dm nm, heap st !! x2 = Some (mk_robj (Int [k]) dm nm) → d = k)
       ∧ (∀ k dm nm, heap st !! x5 = Some (mk_robj (Int [k]) dm nm) → n = k)
       ∧ (∀ k dm nm, heap st !! x6 = Some (mk_robj (Int [k]) dm nm) → m = k))
  ∧ (∀ X d p t n m entry,
       EvRtsne_cpp X d p t n m entry ∈ log_of r →
       outcome_of r = ending (Rtsne_cpp X d p t n m entry).1
       ∧ state_after r = PutRNGstate (Rtsne_cpp X d p t n m entry).2
       ∧ int_value (object st x2) = Ok d
       ∧ double_value (object st x3) = Ok p
       ∧ double_value (object st x4) = Ok t
       ∧ int_value (object st x5) = Ok n
       ∧ int_value (object st x6) = Ok m).
Proof.
  intros a r Hl. subst r.
  assert (Hvalues : ∀ X d p t n m entry,
            (∀ q, converts st entry a q (passed X d p t n m q)) →
            int_value (object st x2) = Ok d
            ∧ double_value (object st x3) = Ok p
            ∧ double_value (object st x4) = Ok t
            ∧ int_value (object st x5) = Ok n
            ∧ int_value (object st x6) = Ok m).
  { intros X d p t n m entry Hall.
    destruct (Hall P_no_dims_in) as [_ Hd].
    destruct (Hall P_perplexity_in) as [_ Hp].
    destruct (Hall P_theta_in) as [_ Ht].
    destruct (Hall P_num_threads) as [_ Hn].
    destruct (Hall P_max_iter) as [_ Hm].
    by split_and!. }
  split.
  - intros Hnone.
    destruct (delegated_run Rtsne_cpp sequencing x1 x2 x3 x4 x5 x6 st Hl Hnone)
      as (X & d & p & t & n & m & entry & Hg & Hall & Hr).
    exists X, d, p, t, n, m, entry. rewrite Hr.
    unfold log_of, outcome_of, state_after. simpl.
    destruct (Hvalues X d p t n m entry Hall) as (Hd & Hp & Ht & Hn & Hm).
    split; [apply calls_delegated|].
    split_and!; try done.
    all: intros v dm nm Hv; rewrite (object_live _ _ _ Hv) in *;
      match goal with
      | Hc : _ _ = Ok ?w |- ?w = _ => by injection Hc
      end.
  - intros X d p t n m entry Hin.
    destruct (logged_call_run Rtsne_cpp sequencing x1 x2 x3 x4 x5 x6 st
                X d p t n m entry Hin) as (_ & Ho & Hs).
    split; [done|]. split; [done|].
    apply (Hvalues X d p t n m entry).
    intros q.
    destruct (wrapper_run_live Rtsne_cpp sequencing x1 x2 x3 x4 x5 x6 st Hl)
      as [(e & q' & l1 & l2 & st1 & Ho' & Hg & Hf & Hr)
         |(X' & d' & p' & t' & n' & m' & st1 & Hg & Hall & Hr)];
      rewrite Hr in Hin; unfold log_of in Hin; simpl in Hin.
    + by apply no_call_in_log in Hin.
    + apply call_in_log in Hin; [|done]. injection Hin as -> -> -> -> -> -> ->.
      apply Hall.
Qed.

(** C2, on the sample session, with a stub that records the theta it
    receives: what it has recorded after the call is the 64 bits of the
    0.5 supplied. *)
Lemma C2_witness :
  live session (mk_arguments p_matrix p_dims p_perplexity p_theta p_threads p_iterations)
  ∧ heap session !! p_theta = Some (mk_robj (Real [half]) None None)
  ∧ elsewhere
      (state_after (Rtsne_multicore_Rtsne_cpp (H:=R_coerce.host) recording right_to_left
                      p_matrix p_dims p_perplexity p_theta p_threads p_iterations
                      session))
    = half.
Proof.
  assert (Hl : live session
                 (mk_arguments p_matrix p_dims p_perplexity p_theta p_threads p_iterations)).
  { intros []; vm_compute; by eexists. }
  assert (Hx : heap session !! p_theta = Some (mk_robj (Real [half]) None None)).
  { vm_compute. reflexivity. }
  split; [exact Hl|]. split; [exact Hx|].
  destruct (proj1 (C2_arguments_passed_as_converted (H:=R_coerce.host) recording
                     right_to_left p_matrix p_dims p_perplexity p_theta p_threads
                     p_iterations session Hl))
    as (X & d & p & t & n & m & entry & _ & _ & Hs & _ & _ & _ & _ & _ & Hb & _).
  { intros []; vm_compute; reflexivity. }
  rewrite Hs. rewrite <- (Hb half None None Hx). reflexivity.
Defined.



(** C4 (as amended).  The wrapper's own steps never write to an
    object of the caller: the state in which [Rtsne_cpp] is entered (or
    in which a rejected call ends) is the caller's with more objects,
    and after the call the heap is as the routine left it.  A copy is
    made only by a conversion of type: a matrix that is not of doubles
    is converted into a new object, which is what the routine receives;
    a matrix of doubles is handed to the routine as the caller's own
    object, so that it is unchanged after the call exactly as far as
    the routine leaves it alone. *)
Theorem C4_callers_matrix_is_not_written `{HostCoercion}
    (Rtsne_cpp : native) (sequencing : param → nat)
    (x1 x2 x3 x4 x5 x6 : SEXP) (st : hstate) :
  let r := Rtsne_multicore_Rtsne_cpp Rtsne_cpp sequencing x1 x2 x3 x4 x5 x6 st in
  (∃ entry,
     grown (GetRNGstate st) entry
     ∧ ((calls (log_of r) = [] ∧ state_after r = PutRNGstate entry)
        ∨ (∃ X d p t n m,
             calls (log_of r) = [EvRtsne_cpp X d p t n m entry]
             ∧ state_after r = PutRNGstate (Rtsne_cpp X d p t n m entry).2
             ∧ ∀ o, heap st !! x1 = Some o →
                 if decide (TYPEOF o = REALSXP) then matrix_sexp X = x1
                 else heap st !! matrix_sexp X = None
                      ∧ heap entry !! matrix_sexp X
                        = Some (Rf_coerceVector o REALSXP))))
  ∧ (∀ x o, heap st !! x = Some o →
     (∀ X d p t n m entry,
        EvRtsne_cpp X d p t n m entry ∈ log_of r →
        heap (Rtsne_cpp X d p t n m entry).2 !! x = heap entry !! x) →
     heap (state_after r) !! x = Some o)
  ∧ (∀ x o, heap st !! x = Some o →
     (calls (log_of r) = [] → heap (state_after r) !! x = Some o)
     ∧ (∀ X d p t n m entry,
          EvRtsne_cpp X d p t n m entry ∈ log_of r →
          heap entry !! x = Some o
          ∧ heap (state_after r) = heap (Rtsne_cpp X d p t n m entry).2))
  ∧ (∀ o, heap st !! x1 = Some o →
     ∀ X d p t n m entry,
       EvRtsne_cpp X d p t n m entry ∈ log_of r →
       if decide (TYPEOF o = REALSXP) then matrix_sexp X = x1
       else heap st !! matrix_sexp X = None
            ∧ heap entry !! matrix_sexp X = Some (Rf_coerceVector o REALSXP)).
Proof.
  intros r. subst r.
  destruct (wrapper_run Rtsne_cpp sequencing x1 x2 x3 x4 x5 x6 st)
    as [(e' & l1 & q & l2 & sta & st1 & Ho & Ha & Hg & Hf & Hr)
       |(X' & d' & p' & t' & n' & m' & st1 & Hg & Hall & Hr)];
    rewrite Hr; unfold log_of, state_after; simpl.
  - split_and!.
    + exists st1. split; [done|]. left. split; [apply calls_failed|done].
    + intros x o Hx _. by apply (grown_lookup (GetRNGstate st) st1).
    + intros x o Hx. split.
      * intros _. by apply (grown_lookup (GetRNGstate st) st1).
      * intros X d p t n m entry Hin. by apply no_call_in_log in Hin.
    + intros o Hx X d p t n m entry Hin. by apply no_call_in_log in Hin.
  - assert (Hmatrix : ∀ o, heap st !! x1 = Some o →
              if decide (TYPEOF o = REALSXP) then matrix_sexp X' = x1
              else heap st !! matrix_sexp X' = None
                   ∧ heap st1 !! matrix_sexp X' = Some (Rf_coerceVector o REALSXP)).
    { intros o Hx.
      destruct (Hall P_X) as (sta & Ha & Hb & _ & Hc). simpl in Hc.
      destruct Hc as (_ & Hm & Hv & _ & Hal).
      assert (Hox : object sta x1 = o).
      { apply object_live. by apply (grown_lookup (GetRNGstate st) sta). }
      rewrite Hox in Hv, Hal.
      destruct (decide (TYPEOF o = REALSXP)); [done|].
      split.
      * apply (grown_fresh (GetRNGstate st) sta); done.
      * rewrite Hm. f_equal. by apply matrix_value_coerced. }
    split_and!.
    + exists st1. split; [done|]. right. exists X', d', p', t', n', m'.
      split; [apply calls_delegated|]. by split.
    + intros x o Hx Hkeeps.
      rewrite (Hkeeps X' d' p' t' n' m' st1).
      * by apply (grown_lookup (GetRNGstate st) st1).
      * rewrite elem_of_cons, elem_of_app, elem_of_cons. right. right. by left.
    + intros x o Hx. split.
      * by rewrite calls_delegated.
      * intros X d p t n m entry Hin.
        apply call_in_log in Hin; [|done]. injection Hin as -> -> -> -> -> -> ->.
        split; [|done]. by apply (grown_lookup (GetRNGstate st) st1).
    + intros o Hx X d p t n m entry Hin.
      apply call_in_log in Hin; [|done]. injection Hin as -> -> -> -> -> -> ->.
      by apply Hmatrix.
Qed.

(** C4 as stated fails: the wrapper makes no copy of a matrix of
    doubles.  A routine that writes to the matrix it is given writes to
    the caller's object, and the caller sees its 4 x 2 matrix changed
    after the call. *)
Lemma C4_a_matrix_of_doubles_is_handed_over_uncopied :
  let r := Rtsne_multicore_Rtsne_cpp (H:=R_coerce.host) scribbling left_to_right
             p_matrix p_dims p_perplexity p_theta p_threads p_iterations session in
  heap session !! p_matrix = Some real_matrix
  ∧ (∃ X d p t n m entry,
       calls (log_of r) = [EvRtsne_cpp X d p t n m entry] ∧ matrix_sexp X = p_matrix)
  ∧ heap (state_after r) !! p_matrix = Some (mk_robj (Real []) (Some [0; 0]) None)
  ∧ heap (state_after r) !! p_matrix ≠ Some real_matrix.
Proof.
  vm_compute. split_and!; try done. by eexists _, _, _, _, _, _, _.
Qed.

(** C5 (as amended).  Apart from the delegated call, what the wrapper
    does to the host state is: load the generator from .Random.seed
    (GetRNGstate), allocate the objects the conversions need, and store
    the generator's state in .Random.seed (PutRNGstate).  The state in
    which [Rtsne_cpp] starts is the loaded state with more objects, and
    the state after the call is the one the routine left, with the
    generator's state written back. *)
Theorem C5_only_the_RNG_state_is_touched `{HostCoercion}
    (Rtsne_cpp : native) (sequencing : param → nat)
    (x1 x2 x3 x4 x5 x6 : SEXP) (st : hstate) :
  let r := Rtsne_multicore_Rtsne_cpp Rtsne_cpp sequencing x1 x2 x3 x4 x5 x6 st in
  ∃ st1,
    grown (GetRNGstate st) st1
    ∧ ((calls (log_of r) = [] ∧ state_after r = PutRNGstate st1)
       ∨ (∃ X d p t n m,
            calls (log_of r) = [EvRtsne_cpp X d p t n m st1]
            ∧ state_after r = PutRNGstate (Rtsne_cpp X d p t n m st1).2)).
Proof.
  intros r. subst r.
  destruct (wrapper_run Rtsne_cpp sequencing x1 x2 x3 x4 x5 x6 st)
    as [(e' & l1 & q & l2 & sta & st1 & Ho & Ha & Hg & Hf & Hr)
       |(X' & d' & p' & t' & n' & m' & st1 & Hg & Hall & Hr)];
    rewrite Hr; unfold log_of, state_after; simpl; exists st1; (split; [done|]).
  - left. split; [apply calls_failed|done].
  - right. exists X', d', p', t', n', m'. split; [apply calls_delegated|done].
Qed.

(** C5 as stated fails: a call in which the native routine is never
    reached (the second argument is a string) still writes to the host
    state, by creating .Random.seed, which a later call can observe. *)
Lemma C5_state_is_written_without_any_call :
  let r := Rtsne_multicore_Rtsne_cpp (H:=R_coerce.host) quiet left_to_right
             p_matrix p_string p_perplexity p_theta p_threads p_iterations
             fresh_session in
  calls (log_of r) = []
  ∧ Random_seed fresh_session = None
  ∧ Random_seed (state_after r) = Some 42.
Proof. vm_compute. by split_and!. Qed.






(** C8.  The log of every call starts with GetRNGstate and ends with
    PutRNGstate, and the call of [Rtsne_cpp], if any, lies between the
    two: the routine starts with the generator loaded from the host, and
    what the generator holds when the routine has finished is stored in
    .Random.seed.  So a call can change the random state the caller
    sees: with a routine that draws one number, the seed goes from 7
    to 8. *)
Theorem C8_RNG_state_is_synchronised :
  (∀ (H : HostCoercion) (Rtsne_cpp : native) (sequencing : param → nat)
     (x1 x2 x3 x4 x5 x6 : SEXP) (st : hstate),
     let r := Rtsne_multicore_Rtsne_cpp Rtsne_cpp sequencing x1 x2 x3 x4 x5 x6 st in
     (∃ tr, log_of r = EvGetRNGstate :: (tr ++ [EvPutRNGstate])
            ∧ (EvGetRNGstate ∉ tr) ∧ (EvPutRNGstate ∉ tr))
     ∧ (∀ X d p t n m entry,
          EvRtsne_cpp X d p t n m entry ∈ log_of r →
          generator entry = generator (GetRNGstate st)
          ∧ Random_seed (state_after r)
            = Some (generator (Rtsne_cpp X d p t n m entry).2))
     ∧ (calls (log_of r) = [] →
        Random_seed (state_after r) = Some (generator (GetRNGstate st))))
  ∧ (let r := Rtsne_multicore_Rtsne_cpp (H:=R_coerce.host) drawing left_to_right
                p_matrix p_dims p_perplexity p_theta p_threads p_iterations
                session in
     Random_seed session = Some 7 ∧ Random_seed (state_after r) = Some 8).
Proof.
  split; [|vm_compute; by split].
  intros H Rtsne_cpp sequencing x1 x2 x3 x4 x5 x6 st r. subst r.
  assert (Hconv : ∀ l : list param,
            (EvGetRNGstate ∉ (EvAs <$> l)) ∧ (EvPutRNGstate ∉ (EvAs <$> l))).
  { intros l. split; intros (q & Hq & _)%list_elem_of_fmap; discriminate Hq. }
  destruct (wrapper_run Rtsne_cpp sequencing x1 x2 x3 x4 x5 x6 st)
    as [(e' & l1 & q & l2 & sta & st1 & Ho & Ha & Hg & Hf & Hr)
       |(X' & d' & p' & t' & n' & m' & st1 & Hg & Hall & Hr)];
    rewrite Hr; unfold log_of, state_after; simpl.
  - split_and!.
    + eexists. split; [reflexivity|]. apply Hconv.
    + intros X d p t n m entry Hin. by apply no_call_in_log in Hin.
    + intros _. destruct Hg as (_ & _ & -> & _). done.
  - split_and!.
    + exists ((EvAs <$> evaluation_order sequencing) ++ [EvRtsne_cpp X' d' p' t' n' m' st1]).
      split; [by rewrite <- app_assoc|].
      destruct (Hconv (evaluation_order sequencing)) as [Hg' Hp'].
      split; intros [?|Hs%list_elem_of_singleton]%elem_of_app; done.
    + intros X d p t n m entry Hin.
      apply call_in_log in Hin; [|done]. injection Hin as -> -> -> -> -> -> ->.
      split; [|done]. by destruct Hg as (_ & _ & -> & _).
    + by rewrite calls_delegated.
Qed.

(** C9 (as amended).  No C++ exception leaves the wrapper: every
    exception is matched by a clause of END_RCPP, and a call ends either
    by returning a SEXP, when the body returned, or by a condition
    signalled to the host, when the body threw.  The condition is an
    error condition, except for Rcpp's InterruptedException, which
    becomes the host's interrupt. *)
Theorem C9_no_exception_escapes `{HostCoercion}
    (Rtsne_cpp : native) (sequencing : param → nat)
    (x1 x2 x3 x4 x5 x6 : SEXP) (st : hstate) :
  let a := mk_arguments x1 x2 x3 x4 x5 x6 in
  let r := Rtsne_multicore_Rtsne_cpp Rtsne_cpp sequencing x1 x2 x3 x4 x5 x6 st in
  (∀ e, outcome_of r ≠ Escaped e)
  ∧ ((∃ value, outcome_of r = Returned value) ∨ (∃ c, outcome_of r = Signalled c))
  ∧ (∀ e, first_match END_RCPP e = Some (condition_of e))
  ∧ (∀ e st' tr, body Rtsne_cpp sequencing a st = (Throw e, st', tr) →
       r = (Signalled (condition_of e), st', tr))
  ∧ (∀ value st' tr, body Rtsne_cpp sequencing a st = (Ok value, st', tr) →
       r = (Returned value, st', tr))
  ∧ (∀ e, e ≠ InterruptedException →
       ∃ classes message, condition_of e = error_condition classes message
                          ∧ "error" ∈ classes)
  ∧ condition_of InterruptedException = interrupt.
Proof.
  intros a r. subst r.
  assert (Hthrow : ∀ e st' tr,
            body Rtsne_cpp sequencing a st = (Throw e, st', tr) →
            Rtsne_multicore_Rtsne_cpp Rtsne_cpp sequencing x1 x2 x3 x4 x5 x6 st
            = (Signalled (condition_of e), st', tr)).
  { intros e st' tr Hb. unfold Rtsne_multicore_Rtsne_cpp, BEGIN_RCPP. fold a.
    by rewrite Hb, first_match_END_RCPP. }
  assert (Hreturn : ∀ value st' tr,
            body Rtsne_cpp sequencing a st = (Ok value, st', tr) →
            Rtsne_multicore_Rtsne_cpp Rtsne_cpp sequencing x1 x2 x3 x4 x5 x6 st
            = (Returned value, st', tr)).
  { intros value st' tr Hb. unfold Rtsne_multicore_Rtsne_cpp, BEGIN_RCPP. fold a.
    by rewrite Hb. }
  assert (Hends : (∃ value, outcome_of (Rtsne_multicore_Rtsne_cpp Rtsne_cpp sequencing
                                          x1 x2 x3 x4 x5 x6 st) = Returned value)
                  ∨ (∃ c, outcome_of (Rtsne_multicore_Rtsne_cpp Rtsne_cpp sequencing
                                        x1 x2 x3 x4 x5 x6 st) = Signalled c)).
  { destruct (body Rtsne_cpp sequencing a st) as [[[value|e] st'] tr] eqn:Hb.
    - left. exists value. by rewrite (Hreturn _ _ _ eq_refl).
    - right. exists (condition_of e). by rewrite (Hthrow _ _ _ eq_refl). }
  split_and!; try done.
  - intros e He. destruct Hends as [[v Hv]|[c Hc]]; congruence.
  - apply first_match_END_RCPP.
  - apply condition_of_error.
Qed.

(** C9 as stated fails: when the native routine throws Rcpp's
    InterruptedException, the call neither returns a SEXP nor signals an
    error condition; it ends with the host's interrupt. *)
Lemma C9_an_interrupt_is_not_an_error_condition :
  outcome_of (Rtsne_multicore_Rtsne_cpp (H:=R_coerce.host) interrupted left_to_right
                p_matrix p_dims p_perplexity p_theta p_threads p_iterations session)
  = Signalled interrupt.
Proof. vm_compute. reflexivity. Qed.

(** C10.  Let [q] be one of the integer parameters.  A single double
    supplied for it is converted by the host's IntegerFromReal, without
    an error: when the five other arguments convert, [Rtsne_cpp] is
    called, receives the converted value, and the call ends as the
    routine ends.  The same holds for every single value of a
    number-like type (logical, integer, double, complex, raw); the
    conversion fails only for an object that is none, and then the call
    ends with a failure of type conversion and the routine is not
    called. *)
Theorem C10_a_real_number_is_coerced_to_int `{HostCoercion}
    (Rtsne_cpp : native) (sequencing : param → nat)
    (x1 x2 x3 x4 x5 x6 : SEXP) (st : hstate) (q : param) :
  let a := mk_arguments x1 x2 x3 x4 x5 x6 in
  let r := Rtsne_multicore_Rtsne_cpp Rtsne_cpp sequencing x1 x2 x3 x4 x5 x6 st in
  live st a →
  q ∈ [P_no_dims_in; P_num_threads; P_max_iter] →
  (∀ x dm nm,
     heap st !! supplied a q = Some (mk_robj (Real [x]) dm nm) →
     conversion_failure st a q = None
     ∧ ((∀ p, p ≠ q → conversion_failure st a p = None) →
        ∃ X d p t n m entry,
          calls (log_of r) = [EvRtsne_cpp X d p t n m entry]
          ∧ passed X d p t n m q = Integer (IntegerFromReal x)
          ∧ outcome_of r = ending (Rtsne_cpp X d p t n m entry).1
          ∧ state_after r = PutRNGstate (Rtsne_cpp X d p t n m entry).2)
     ∧ ∀ X d p t n m entry,
         EvRtsne_cpp X d p t n m entry ∈ log_of r →
         passed X d p t n m q = Integer (IntegerFromReal x))
  ∧ (conversion_failure st a q = None
     ↔ Rf_length (object st (supplied a q)) = 1%nat
       ∧ number_like (TYPEOF (object st (supplied a q))) = true)
  ∧ (Rf_length (object st (supplied a q)) = 1%nat →
     number_like (TYPEOF (object st (supplied a q))) = true →
     (∀ p, p ≠ q → conversion_failure st a p = None) →
     ∃ X d p t n m entry k,
       calls (log_of r) = [EvRtsne_cpp X d p t n m entry]
       ∧ int_value (object st (supplied a q)) = Ok k
       ∧ passed X d p t n m q = Integer k
       ∧ outcome_of r = ending (Rtsne_cpp X d p t n m entry).1
       ∧ state_after r = PutRNGstate (Rtsne_cpp X d p t n m entry).2)
  ∧ (conversion_failure st a q ≠ None →
     calls (log_of r) = []
     ∧ ∃ e, ArgumentTypeError e ∧ outcome_of r = Signalled (condition_of e)).
Proof.
  intros a r Hl Hq. subst r.
  assert (Hint : conversion_failure st a q = failure (int_value (object st (supplied a q)))).
  { rewrite !elem_of_cons, elem_of_nil in Hq. by destruct Hq as [->|[->|[->|[]]]]. }
  assert (Hiff : conversion_failure st a q = None
                 ↔ Rf_length (object st (supplied a q)) = 1%nat
                   ∧ number_like (TYPEOF (object st (supplied a q))) = true).
  { rewrite Hint. unfold int_value.
    destruct (object st (supplied a q)) as [[] dm nm]; unfold Rf_length; simpl.
    all: try (split; [done|by intros [? ?]]).
    all: destruct (decide _) as [Hlen|Hlen]; simpl; (split; [done|]); try done.
    all: by intros [? ?]. }
  assert (Hreached : conversion_failure st a q = None →
            (∀ p, p ≠ q → conversion_failure st a p = None) →
            ∃ X d p t n m entry k,
              calls (log_of (Rtsne_multicore_Rtsne_cpp Rtsne_cpp sequencing
                               x1 x2 x3 x4 x5 x6 st))
              = [EvRtsne_cpp X d p t n m entry]
              ∧ int_value (object st (supplied a q)) = Ok k
              ∧ passed X d p t n m q = Integer k
              ∧ outcome_of (Rtsne_multicore_Rtsne_cpp Rtsne_cpp sequencing
                              x1 x2 x3 x4 x5 x6 st)
                = ending (Rtsne_cpp X d p t n m entry).1
              ∧ state_after (Rtsne_multicore_Rtsne_cpp Rtsne_cpp sequencing
                               x1 x2 x3 x4 x5 x6 st)
                = PutRNGstate (Rtsne_cpp X d p t n m entry).2).
  { intros Hnone Hothers.
    assert (Hall : ∀ p, conversion_failure st a p = None).
    { intros p. destruct (decide (p = q)) as [->|Hne]; [done|by apply Hothers]. }
    destruct (delegated_run Rtsne_cpp sequencing x1 x2 x3 x4 x5 x6 st Hl Hall)
      as (X & d & p & t & n & m & entry & _ & Hc & Hr).
    specialize (Hc q).
    assert (Hk : ∃ k, int_value (object st (supplied a q)) = Ok k
                      ∧ passed X d p t n m q = Integer k).
    { rewrite !elem_of_cons, elem_of_nil in Hq.
      destruct Hq as [->|[->|[->|[]]]]; simpl in *; destruct Hc as [_ Hc];
        by eexists. }
    destruct Hk as (k & Hk & Hp).
    exists X, d, p, t, n, m, entry, k. rewrite Hr.
    unfold log_of, outcome_of, state_after. simpl.
    split; [apply calls_delegated|done]. }
  split_and!; [|done| |].
  - intros x dm nm Hx.
    assert (Hnone : conversion_failure st a q = None).
    { by rewrite Hint, (object_live _ _ _ Hx). }
    split; [done|]. split.
    + intros Hothers.
      destruct (Hreached Hnone Hothers)
        as (X & d & p & t & n & m & entry & k & Hc & Hk & Hp & Ho & Hs).
      exists X, d, p, t, n, m, entry. split_and!; try done.
      rewrite (object_live _ _ _ Hx) in Hk. by injection Hk as <-.
    + intros X d p t n m entry Hin.
      destruct (wrapper_run_live Rtsne_cpp sequencing x1 x2 x3 x4 x5 x6 st Hl)
        as [(e & q' & l1 & l2 & st1 & Ho & Hg & Hf & Hr)
           |(X' & d' & p' & t' & n' & m' & st1 & Hg & Hall & Hr)];
        fold a in Hf || fold a in Hall; rewrite Hr in Hin; unfold log_of in Hin;
        simpl in Hin.
      * by apply no_call_in_log in Hin.
      * apply call_in_log in Hin; [|done]. injection Hin as -> -> -> -> -> -> ->.
        destruct (Hall q) as [_ Hc].
        rewrite !elem_of_cons, elem_of_nil in Hq.
        destruct Hq as [->|[->|[->|[]]]]; simpl in *; destruct Hc as [_ Hc];
          rewrite (object_live _ _ _ Hx) in Hc; by injection Hc as <-.
  - intros Hlen Hnum Hothers. apply Hreached; [|done]. by apply Hiff.
  - intros Hfail.
    destruct (wrapper_run_live Rtsne_cpp sequencing x1 x2 x3 x4 x5 x6 st Hl)
      as [(e & q' & l1 & l2 & st1 & Ho & Hg & Hf & Hr)
         |(X' & d' & p' & t' & n' & m' & st1 & Hg & Hall & Hr)];
      fold a in Hf || fold a in Hall.
    + rewrite Hr. unfold log_of, outcome_of. simpl.
      split; [apply calls_failed|]. exists e. split; [|done].
      by eapply conversion_failure_ArgumentTypeError.
    + by destruct (Hall q) as [Hnone _].
Qed.

(** C10, on the sample session: with 2.0 for the number of dimensions
    the routine is called, with 2. *)
Lemma C10_witness :
  live session (mk_arguments p_matrix p_real_two p_perplexity p_theta p_threads p_iterations)
  ∧ P_no_dims_in ∈ [P_no_dims_in; P_num_threads; P_max_iter]
  ∧ heap session !! p_real_two = Some (mk_robj (Real [two]) None None)
  ∧ ∃ X d p t n m entry,
      calls (log_of (Rtsne_multicore_Rtsne_cpp (H:=R_coerce.host) quiet left_to_right
                       p_matrix p_real_two p_perplexity p_theta p_threads p_iterations
                       session))
      = [EvRtsne_cpp X d p t n m entry]
      ∧ d = 2.
Proof.
  assert (Hl : live session
                 (mk_arguments p_matrix p_real_two p_perplexity p_theta p_threads
                    p_iterations)).
  { intros []; vm_compute; by eexists. }
  assert (Hq : P_no_dims_in ∈ [P_no_dims_in; P_num_threads; P_max_iter]).
  { apply list_elem_of_here. }
  assert (Hx : heap session !! p_real_two = Some (mk_robj (Real [two]) None None)).
  { vm_compute. reflexivity. }
  split; [exact Hl|]. split; [exact Hq|]. split; [exact Hx|].
  destruct (C10_a_real_number_is_coerced_to_int (H:=R_coerce.host) quiet left_to_right
              p_matrix p_real_two p_perplexity p_theta p_threads p_iterations
              session P_no_dims_in Hl Hq) as [Hreal _].
  destruct (Hreal two None None Hx) as (_ & Hreached & _).
  destruct Hreached as (X & d & p & t & n & m & entry & Hc & Hp & _).
  { intros p _. destruct p; vm_compute; reflexivity. }
  exists X, d, p, t, n, m, entry. split; [exact Hc|].
  by injection Hp as ->.
Defined.

(** ** Further runs on the sample session *)

(** A failure of the native routine reaches the host with its class and
    message. *)
Example run_out_of_memory :
  outcome_of (Rtsne_multicore_Rtsne_cpp (H:=R_coerce.host) out_of_memory left_to_right
                p_matrix p_dims p_perplexity p_theta p_threads p_iterations session)
  = Signalled (error_condition ["std::bad_alloc"; "C++Error"; "error"; "condition"]
                 "std::bad_alloc").
Proof. vm_compute. reflexivity. Qed.

(** Which error is reported when two arguments are wrong depends on the
    order of evaluation. *)
Example run_two_wrong_arguments :
  outcome_of (Rtsne_multicore_Rtsne_cpp (H:=R_coerce.host) quiet left_to_right
                p_null p_string p_perplexity p_theta p_threads p_iterations session)
  ≠ outcome_of (Rtsne_multicore_Rtsne_cpp (H:=R_coerce.host) quiet right_to_left
                  p_null p_string p_perplexity p_theta p_threads p_iterations session).
Proof. vm_compute. discriminate. Qed.

(** A matrix of doubles is shared with the native routine: what a
    routine writes through its argument, the caller sees. *)
Example run_scribbling_on_a_real_matrix :
  heap (state_after
          (Rtsne_multicore_Rtsne_cpp (H:=R_coerce.host) scribbling left_to_right
             p_matrix p_dims p_perplexity p_theta p_threads p_iterations session))
    !! p_matrix
  = Some (mk_robj (Real []) (Some [0; 0]) None).
Proof. vm_compute. reflexivity. Qed.

(** A matrix of integers is converted into a new object, and the same
    routine leaves the caller's matrix as it was. *)
Example run_scribbling_on_a_converted_matrix :
  heap (state_after
          (Rtsne_multicore_Rtsne_cpp (H:=R_coerce.host) scribbling left_to_right
             p_integer_matrix p_dims p_perplexity p_theta p_threads p_iterations
             session))
    !! p_integer_matrix
  = Some integer_matrix.
Proof. vm_compute. reflexivity. Qed.

(** * Further properties of the wrapper

    What lines 10 to 23 show beyond the claims above: which error is
    reported, which objects are accepted, what is allocated, what the
    order of evaluation can and cannot change, and what the conversions
    of the host make of the numbers they are given. *)

(** ** The call in terms of the evaluation of its arguments *)

Section Steps.
Context `{HostCoercion}.
Variable Rtsne_cpp : native.
Variable sequencing : param → nat.

(** [wrapper_run], keeping the run of [evaluate] it comes from. *)
Lemma wrapper_run_evaluate x1 x2 x3 x4 x5 x6 st :
  let a := mk_arguments x1 x2 x3 x4 x5 x6 in
  ∃ r st1 tr,
    evaluate a (evaluation_order sequencing) nothing_converted (GetRNGstate st)
    = (r, st1, tr)
    ∧ (∃ l, tr = EvAs <$> l)
    ∧ match r with
      | Throw e =>
          Rtsne_multicore_Rtsne_cpp Rtsne_cpp sequencing x1 x2 x3 x4 x5 x6 st
          = (Signalled (condition_of e), PutRNGstate st1,
             EvGetRNGstate :: tr ++ [EvPutRNGstate])
      | Ok c =>
          ∃ X d p t n m,
            (∀ q, ∃ sta, grown (GetRNGstate st) sta ∧ grown sta st1
                         ∧ converts sta st1 a q (passed X d p t n m q))
            ∧ Rtsne_multicore_Rtsne_cpp Rtsne_cpp sequencing x1 x2 x3 x4 x5 x6 st
              = (ending (Rtsne_cpp X d p t n m st1).1,
                 PutRNGstate (Rtsne_cpp X d p t n m st1).2,
                 EvGetRNGstate :: tr ++ [EvRtsne_cpp X d p t n m st1; EvPutRNGstate])
      end.
Proof.
  intros a.
  destruct (evaluate_run a (evaluation_order sequencing) nothing_converted
              (GetRNGstate st)) as (r & st1 & tr & Hr & Hg & Hc).
  exists r, st1, tr. split; [done|]. split.
  { destruct r as [c|e]; [destruct Hc as (-> & _); by eexists|].
    destruct Hc as (l1 & p & l2 & sta & _ & -> & _). by eexists. }
  unfold Rtsne_multicore_Rtsne_cpp, BEGIN_RCPP, body, RNGScope.
  fold a. unfold_M. rewrite Hr.
  destruct r as [c|e]; [|by destruct e].
  destruct Hc as (-> & Hin & _).
  assert (Hall : ∀ q, ∃ v sta, c q = Some v ∧ grown (GetRNGstate st) sta
                       ∧ grown sta st1 ∧ converts sta st1 a q v).
  { intros q. destruct (Hin q (evaluation_order_all sequencing q))
      as (v & sta & ? & ? & ? & _ & ?). by exists v, sta. }
  destruct (Hall P_X) as (v1 & s1 & Hc1 & ? & ? & Hv1).
  destruct (Hall P_no_dims_in) as (v2 & s2 & Hc2 & ? & ? & Hv2).
  destruct (Hall P_perplexity_in) as (v3 & s3 & Hc3 & ? & ? & Hv3).
  destruct (Hall P_theta_in) as (v4 & s4 & Hc4 & ? & ? & Hv4).
  destruct (Hall P_num_threads) as (v5 & s5 & Hc5 & ? & ? & Hv5).
  destruct (Hall P_max_iter) as (v6 & s6 & Hc6 & ? & ? & Hv6).
  destruct (converts_passed _ _ _ _ _ Hv1) as [X ->].
  destruct (converts_passed _ _ _ _ _ Hv2) as [d ->].
  destruct (converts_passed _ _ _ _ _ Hv3) as [p ->].
  destruct (converts_passed _ _ _ _ _ Hv4) as [t ->].
  destruct (converts_passed _ _ _ _ _ Hv5) as [n ->].
  destruct (converts_passed _ _ _ _ _ Hv6) as [m ->].
  exists X, d, p, t, n, m. split.
  { intros []; [exists s1|exists s2|exists s3|exists s4|exists s5|exists s6];
      by split_and!. }
  unfold call. rewrite Hc1, Hc2, Hc3, Hc4, Hc5, Hc6.
  destruct (Rtsne_cpp X d p t n m st1) as [[l|e] st2]; simpl.
  - by rewrite <- app_assoc.
  - destruct e; by rewrite <- app_assoc.
Qed.

(** The conversions up to the first one that fails. *)
Lemma evaluate_first_failure a l1 q l2 e st0 :
  live st0 a →
  (∀ p, p ∈ l1 → conversion_failure st0 a p = None) →
  conversion_failure st0 a q = Some e →
  ∀ c st, grown st0 st →
    ∃ st', evaluate a (l1 ++ q :: l2) c st = (Throw e, st', EvAs <$> (l1 ++ [q])).
Proof.
  intros Hl Hnone Hq.
  induction l1 as [|p l1 IH]; intros c st Hg; simpl; unfold_M.
  - destruct (input_parameter_run a q st) as (r & st' & -> & _ & Hr).
    rewrite (conversion_failure_earlier st0 st a q Hl Hg), Hq in Hr.
    destruct r as [v|e']; [by destruct Hr|].
    injection Hr as <-. by exists st'.
  - destruct (input_parameter_run a p st) as (r & st1 & -> & Hg1 & Hr).
    rewrite (conversion_failure_earlier st0 st a p Hl Hg) in Hr.
    rewrite Hnone in Hr by apply list_elem_of_here.
    destruct r as [v|e']; [|done].
    destruct (IH (λ p' Hp', Hnone p' (list_elem_of_further _ _ _ Hp'))
                (store p v c) st1 (grown_trans _ _ _ Hg Hg1)) as (st' & ->).
    by exists st'.
Qed.

(** What the native routine is called with, for arguments that point
    into the heap. *)
Lemma call_converts x1 x2 x3 x4 x5 x6 st X d p t n m entry :
  let a := mk_arguments x1 x2 x3 x4 x5 x6 in
  live st a →
  EvRtsne_cpp X d p t n m entry
    ∈ log_of (Rtsne_multicore_Rtsne_cpp Rtsne_cpp sequencing x1 x2 x3 x4 x5 x6 st) →
  grown (GetRNGstate st) entry
  ∧ ∀ q, conversion_failure st a q = None
         ∧ converts st entry a q (passed X d p t n m q).
Proof.
  intros a Hl Hin.
  destruct (wrapper_run_live Rtsne_cpp sequencing x1 x2 x3 x4 x5 x6 st Hl)
    as [(e & q & l1 & l2 & st1 & Ho & Hg & Hf & Hr)
       |(X' & d' & p' & t' & n' & m' & st1 & Hg & Hall & Hr)];
    rewrite Hr in Hin; unfold log_of in Hin; simpl in Hin.
  - by apply no_call_in_log in Hin.
  - apply call_in_log in Hin; [|done]. by injection Hin as -> -> -> -> -> -> ->.
Qed.

End Steps.

(** ** The objects a conversion takes *)

Lemma conversion_failure_acceptable `{HostCoercion} st a q :
  conversion_failure st a q = None
  ↔ acceptable q (object st (supplied a q)) = true.
Proof.
  unfold conversion_failure, acceptable, int_value, double_value, matrix_value.
  destruct q; simpl; destruct (object st _) as [[] dm nm];
    unfold Rf_length, Rf_isMatrix; simpl; try done.
  all: try (destruct dm as [[|? [|? [|? ?]]]|]; simpl; done).
  all: unfold bool_decide; destruct (decide _) as [Hlen|Hlen]; simpl; try done.
  all: by destruct (decide_rel eq _ _).
Qed.

(** A pointer that leads to an object of a type other than NULL points
    into the heap. *)
Lemma typed_is_live st x t :
  TYPEOF (object st x) = t → t ≠ NILSXP → is_Some (heap st !! x).
Proof.
  unfold object. destruct (heap st !! x); [by eexists|].
  intros <- Hne. by destruct Hne.
Qed.

(** ** What the conversions allocate *)

Section Allocation.
Context `{HostCoercion}.

Lemma r_cast_alloc target x st :
  ∃ r st', r_cast target x st = (r, st', [])
    ∧ (TYPEOF (object st x) = target → st' = st)
    ∧ (∀ y, r = Ok y → TYPEOF (object st x) ≠ target →
         size (heap st') = S (size (heap st))).
Proof.
  destruct (r_cast_run target x st)
    as [(Hr & Ht)|[(y & st' & Hr & Hne & Hin & Hy & Hh & Hg)|(Hr & Hne & Hnin)]];
    rewrite Hr; eexists _, _; (split; [reflexivity|]); split; try done.
  intros _ _ _. rewrite Hh. by apply map_size_insert_None.
Qed.

Lemma as_int_alloc x st :
  ∃ r st', as_int x st = (r, st', [])
    ∧ (TYPEOF (object st x) = INTSXP → st' = st)
    ∧ (∀ v, r = Ok v → TYPEOF (object st x) ≠ INTSXP →
         size (heap st') = S (size (heap st))).
Proof.
  unfold as_int. unfold_M.
  destruct (decide (Rf_length _ = 1%nat)) as [Hlen|Hlen]; [|by eexists (Throw _), st].
  destruct (r_cast_alloc INTSXP x st) as ([y|e] & st' & -> & Hsame & Hnew).
  - exists (Ok (INTEGER_0 (object st' y))), st'. split; [done|]. split; [done|].
    intros _ _. by eapply Hnew.
  - by exists (Throw e), st'.
Qed.

Lemma as_double_alloc x st :
  ∃ r st', as_double x st = (r, st', [])
    ∧ (TYPEOF (object st x) = REALSXP → st' = st)
    ∧ (∀ v, r = Ok v → TYPEOF (object st x) ≠ REALSXP →
         size (heap st') = S (size (heap st))).
Proof.
  unfold as_double. unfold_M.
  destruct (decide (Rf_length _ = 1%nat)) as [Hlen|Hlen]; [|by eexists (Throw _), st].
  destruct (r_cast_alloc REALSXP x st) as ([y|e] & st' & -> & Hsame & Hnew).
  - exists (Ok (REAL_0 (object st' y))), st'. split; [done|]. split; [done|].
    intros _ _. by eapply Hnew.
  - by exists (Throw e), st'.
Qed.

Lemma as_NumericMatrix_alloc x st :
  ∃ r st', as_NumericMatrix x st = (r, st', [])
    ∧ (TYPEOF (object st x) = REALSXP → st' = st)
    ∧ (∀ v, r = Ok v → TYPEOF (object st x) ≠ REALSXP →
         size (heap st') = S (size (heap st))).
Proof.
  unfold as_NumericMatrix. unfold_M.
  destruct (r_cast_alloc REALSXP x st) as ([y|e] & st' & -> & Hsame & Hnew).
  - destruct (Rf_isMatrix _); [|by eexists (Throw _), st'].
    eexists (Ok _), st'. split; [done|]. split; [done|].
    intros _ _. by eapply Hnew.
  - by exists (Throw e), st'.
Qed.

(** One conversion: nothing changes when the object has the native
    type, and a conversion that succeeds on an object of another type
    adds one object. *)
Lemma input_parameter_alloc a p st :
  ∃ r st', input_parameter a p st = (r, st', [])
    ∧ (TYPEOF (object st (supplied a p)) = native_type p → st' = st)
    ∧ (∀ v, r = Ok v → TYPEOF (object st (supplied a p)) ≠ native_type p →
         size (heap st') = S (size (heap st))).
Proof.
  destruct p; simpl; unfold_M.
  - destruct (as_NumericMatrix_alloc (XSEXP a) st) as ([v|e] & st' & -> & ? & Hnew);
      eexists _, st'; (split; [reflexivity|]); (split; [done|]); [|done].
    intros _ _. by eapply Hnew.
  - destruct (as_int_alloc (no_dims_inSEXP a) st) as ([v|e] & st' & -> & ? & Hnew);
      eexists _, st'; (split; [reflexivity|]); (split; [done|]); [|done].
    intros _ _. by eapply Hnew.
  - destruct (as_double_alloc (perplexity_inSEXP a) st) as ([v|e] & st' & -> & ? & Hnew);
      eexists _, st'; (split; [reflexivity|]); (split; [done|]); [|done].
    intros _ _. by eapply Hnew.
  - destruct (as_double_alloc (theta_inSEXP a) st) as ([v|e] & st' & -> & ? & Hnew);
      eexists _, st'; (split; [reflexivity|]); (split; [done|]); [|done].
    intros _ _. by eapply Hnew.
  - destruct (as_int_alloc (num_threadsSEXP a) st) as ([v|e] & st' & -> & ? & Hnew);
      eexists _, st'; (split; [reflexivity|]); (split; [done|]); [|done].
    intros _ _. by eapply Hnew.
  - destruct (as_int_alloc (max_iterSEXP a) st) as ([v|e] & st' & -> & ? & Hnew);
      eexists _, st'; (split; [reflexivity|]); (split; [done|]); [|done].
    intros _ _. by eapply Hnew.
Qed.

Lemma evaluate_in_place a l : ∀ c st,
  (∀ p, p ∈ l → TYPEOF (object st (supplied a p)) = native_type p) →
  ∃ r tr, evaluate a l c st = (r, st, tr).
Proof.
  induction l as [|p l IH]; intros c st Hty; [by eexists _, _|].
  simpl. unfold_M.
  destruct (input_parameter_alloc a p st) as (r & st' & -> & Hsame & _).
  rewrite (Hsame (Hty p (list_elem_of_here _ _))).
  destruct r as [v|e]; [|by eexists _, _].
  destruct (IH (store p v c) st) as (r & tr & ->).
  { intros q Hq. by apply Hty, list_elem_of_further. }
  by eexists _, _.
Qed.

Lemma evaluate_alloc a st0 l :
  live st0 a →
  ∀ c st, grown st0 st →
  ∃ r st' tr, evaluate a l c st = (r, st', tr)
    ∧ (∀ c', r = Ok c' →
         size (heap st')
         = (size (heap st)
            + length (filter (λ p, TYPEOF (object st0 (supplied a p)) ≠ native_type p)
                        l))%nat).
Proof.
  intros Hl. induction l as [|p l IH]; intros c st Hg.
  { eexists _, _, _. split; [reflexivity|]. intros _ _. simpl. lia. }
  simpl evaluate. unfold_M.
  destruct (input_parameter_run a p st) as (r0 & st0' & Hr0 & Hg0 & _).
  destruct (input_parameter_alloc a p st) as (r & st' & Hr & Hsame & Hnew).
  rewrite Hr0 in Hr. injection Hr as <- <-. rewrite Hr0.
  destruct r0 as [v|e]; [|eexists _, _, _; split; [reflexivity|done]].
  destruct (IH (store p v c) st0' (grown_trans _ _ _ Hg Hg0))
    as (r & st2 & tr & -> & Hsize).
  eexists _, _, _. split; [reflexivity|].
  intros c' ->. rewrite (Hsize c' eq_refl).
  rewrite (grown_object _ _ _ Hg (Hl p)) in Hsame, Hnew.
  rewrite filter_cons. destruct (decide _) as [Hne|Heq]; simpl.
  - rewrite (Hnew v eq_refl Hne). lia.
  - apply dec_stable in Heq. by rewrite (Hsame Heq).
Qed.

End Allocation.

(** ** Doubles and the conversions of the host *)

Module IEEE754_facts.
Import IEEE754.

Lemma truncate_of_int k : truncate (k * 2 ^ 1074) = k.
Proof. unfold truncate. apply Z.quot_mul. by apply Z.pow_nonzero. Qed.

(** [(int) x] drops the fraction, towards zero. *)
Lemma truncate_between s w :
  (0 ≤ w ∧ w * 2 ^ 1074 ≤ s < (w + 1) * 2 ^ 1074)
  ∨ (w ≤ 0 ∧ (w - 1) * 2 ^ 1074 < s ≤ w * 2 ^ 1074) →
  truncate s = w.
Proof.
  assert (Hp : 0 < 2 ^ 1074) by (by apply Z.pow_pos_nonneg).
  unfold truncate. generalize dependent (2 ^ 1074). intros b Hb [[Hw Hs]|[Hw Hs]].
  - rewrite Z.quot_div_nonneg by nia. symmetry.
    apply (Z.div_unique _ _ _ (s - w * b)); [left|]; nia.
  - rewrite <- (Z.opp_involutive s), Z.quot_opp_l by lia.
    rewrite Z.quot_div_nonneg by nia.
    assert (- s / b = - w); [|lia]. symmetry.
    apply (Z.div_unique _ _ _ (- s + w * b)); [left|]; nia.
Qed.



(** IntegerFromReal of R never leaves the range of an int. *)
Lemma IntegerFromReal_range x :
  - 2 ^ 31 ≤ R_coerce.IntegerFromReal x < 2 ^ 31.
Proof.
  unfold R_coerce.IntegerFromReal, NA_INTEGER.
  destruct (value_of x) as [| |s]; [lia..|].
  destruct (Z.leb_spec (2 ^ 31) (truncate s)); simpl; [lia|].
  destruct (Z.leb_spec (truncate s) (- 2 ^ 31)); lia.
Qed.

Lemma IntegerFromReal_truncate x s w :
  value_of x = Finite s → truncate s = w → - 2 ^ 31 < w < 2 ^ 31 →
  R_coerce.IntegerFromReal x = w.
Proof.
  intros Hx Hs Hw. unfold R_coerce.IntegerFromReal. rewrite Hx, Hs.
  rewrite (proj2 (Z.leb_gt _ _)) by lia.
  by rewrite (proj2 (Z.leb_gt _ _)) by lia.
Qed.

End IEEE754_facts.

(** ** Which error is reported *)

(** X1.  For arguments that point to objects of the host: when the
    arguments evaluated before [q] all convert and the one for [q] does
    not, the call ends with the condition built from the failure of
    [q], whatever is wrong with the arguments evaluated later, which are
    not even looked at: the log stops after the conversion of [q].  As
    the compiler chooses the order of evaluation, it chooses which of
    several wrong arguments is reported. *)
Theorem X1_the_first_failure_is_reported `{HostCoercion}
    (Rtsne_cpp : native) (sequencing : param → nat)
    (x1 x2 x3 x4 x5 x6 : SEXP) (st : hstate)
    (l1 l2 : list param) (q : param) (e : exn) :
  let a := mk_arguments x1 x2 x3 x4 x5 x6 in
  let r := Rtsne_multicore_Rtsne_cpp Rtsne_cpp sequencing x1 x2 x3 x4 x5 x6 st in
  live st a →
  evaluation_order sequencing = l1 ++ q :: l2 →
  (∀ p, p ∈ l1 → conversion_failure st a p = None) →
  conversion_failure st a q = Some e →
  outcome_of r = Signalled (condition_of e)
  ∧ log_of r = EvGetRNGstate :: (EvAs <$> (l1 ++ [q])) ++ [EvPutRNGstate].
Proof.
  intros a r Hl Ho Hnone Hq. subst r.
  destruct (wrapper_run_evaluate Rtsne_cpp sequencing x1 x2 x3 x4 x5 x6 st)
    as (r & st1 & tr & He & _ & Hr). fold a in He.
  destruct (evaluate_first_failure a l1 q l2 e (GetRNGstate st) Hl Hnone Hq
              nothing_converted (GetRNGstate st) (grown_refl _)) as (st' & He').
  rewrite Ho, He' in He. injection He as <- <- <-.
  by rewrite Hr.
Qed.

(** X1, on the sample session: with NULL for the matrix and a string
    for the number of dimensions, evaluation from right to left reports
    the string. *)
Lemma X1_witness :
  live session (mk_arguments p_null p_string p_perplexity p_theta p_threads p_iterations)
  ∧ outcome_of (Rtsne_multicore_Rtsne_cpp (H:=R_coerce.host) quiet right_to_left
                  p_null p_string p_perplexity p_theta p_threads p_iterations session)
    = Signalled
        (error_condition ["Rcpp::not_compatible"; "C++Error"; "error"; "condition"]
           "Not compatible with requested type: [type=character; target=integer].").
Proof.
  assert (Hl : live session
                 (mk_arguments p_null p_string p_perplexity p_theta p_threads p_iterations)).
  { intros []; vm_compute; by eexists. }
  split; [exact Hl|].
  refine (proj1 (X1_the_first_failure_is_reported (H:=R_coerce.host) quiet right_to_left
            p_null p_string p_perplexity p_theta p_threads p_iterations session
            [P_max_iter; P_num_threads; P_theta_in; P_perplexity_in] [P_X] P_no_dims_in
            (Exception "Rcpp::not_compatible"
               "Not compatible with requested type: [type=character; target=integer].")
            Hl _ _ _)).
  - vm_compute. reflexivity.
  - intros p Hp. rewrite !elem_of_cons, elem_of_nil in Hp.
    destruct Hp as [->|[->|[->|[->|[]]]]]; vm_compute; reflexivity.
  - vm_compute. reflexivity.
Defined.

(** ** Which objects are accepted *)

(** X2.  For arguments that point to objects of the host: the native
    routine is reached exactly when the first argument is a matrix
    (a dim attribute of length 2) of logical, integer, double, complex
    or raw type and each of the five others is a vector of length 1 of
    one of these types.  With any other object among the six, the call
    ends with a failure of type conversion. *)
Theorem X2_reached_iff_every_argument_is_acceptable `{HostCoercion}
    (Rtsne_cpp : native) (sequencing : param → nat)
    (x1 x2 x3 x4 x5 x6 : SEXP) (st : hstate) :
  let a := mk_arguments x1 x2 x3 x4 x5 x6 in
  let r := Rtsne_multicore_Rtsne_cpp Rtsne_cpp sequencing x1 x2 x3 x4 x5 x6 st in
  live st a →
  (calls (log_of r) ≠ [] ↔ ∀ q, acceptable q (object st (supplied a q)) = true)
  ∧ (∀ q, acceptable q (object st (supplied a q)) = false →
       ∃ e, ArgumentTypeError e ∧ outcome_of r = Signalled (condition_of e)).
Proof.
  intros a r Hl. subst r.
  destruct (wrapper_run_live Rtsne_cpp sequencing x1 x2 x3 x4 x5 x6 st Hl)
    as [(e & q & l1 & l2 & st1 & Ho & Hg & Hf & Hr)
       |(X & d & p & t & n & m & st1 & Hg & Hall & Hr)];
    fold a in Hf || fold a in Hall; rewrite Hr; unfold log_of, outcome_of; simpl.
  - rewrite calls_failed. split.
    + split; [done|]. intros Hacc. specialize (Hacc q).
      apply conversion_failure_acceptable in Hacc. by rewrite Hacc in Hf.
    + intros _ _. exists e. split; [|done].
      by eapply conversion_failure_ArgumentTypeError.
  - rewrite calls_delegated. split.
    + split; [|done]. intros _ q. apply conversion_failure_acceptable, Hall.
    + intros q Hq. destruct (Hall q) as [Hnone _].
      apply conversion_failure_acceptable in Hnone. fold a in Hnone. congruence.
Qed.

(** X2, on the sample session: the six objects are acceptable and the
    routine is reached. *)
Lemma X2_witness :
  live session (mk_arguments p_matrix p_dims p_perplexity p_theta p_threads p_iterations)
  ∧ calls (log_of (Rtsne_multicore_Rtsne_cpp (H:=R_coerce.host) quiet left_to_right
                     p_matrix p_dims p_perplexity p_theta p_threads p_iterations
                     session)) ≠ [].
Proof.
  assert (Hl : live session
                 (mk_arguments p_matrix p_dims p_perplexity p_theta p_threads p_iterations)).
  { intros []; vm_compute; by eexists. }
  split; [exact Hl|].
  apply (proj1 (X2_reached_iff_every_argument_is_acceptable (H:=R_coerce.host) quiet
                  left_to_right p_matrix p_dims p_perplexity p_theta p_threads
                  p_iterations session Hl)).
  intros []; vm_compute; reflexivity.
Defined.

(** ** What is allocated *)

(** X3.  When the six objects have the types of the native side (a
    vector of doubles for the matrix, perplexity and theta, a vector of
    integers for the three counts), the wrapper allocates nothing: the
    native routine starts in the very state GetRNGstate left, with the
    caller's matrix itself as its argument, and a call that is rejected
    (a vector that is no matrix, or not of length 1) leaves the state as
    found, up to the synchronisation of the generator. *)
Theorem X3_native_types_are_passed_in_place `{HostCoercion}
    (Rtsne_cpp : native) (sequencing : param → nat)
    (x1 x2 x3 x4 x5 x6 : SEXP) (st : hstate) :
  let a := mk_arguments x1 x2 x3 x4 x5 x6 in
  let r := Rtsne_multicore_Rtsne_cpp Rtsne_cpp sequencing x1 x2 x3 x4 x5 x6 st in
  (∀ q, TYPEOF (object st (supplied a q)) = native_type q) →
  (calls (log_of r) = [] → state_after r = PutRNGstate (GetRNGstate st))
  ∧ (∀ X d p t n m entry,
       EvRtsne_cpp X d p t n m entry ∈ log_of r →
       entry = GetRNGstate st ∧ matrix_sexp X = x1).
Proof.
  intros a r Hty. subst r.
  destruct (wrapper_run_evaluate Rtsne_cpp sequencing x1 x2 x3 x4 x5 x6 st)
    as (r & st1 & tr & He & [l ->] & Hr). fold a in He, Hr.
  destruct (evaluate_in_place a (evaluation_order sequencing) nothing_converted
              (GetRNGstate st)) as (r' & tr' & He'); [by intros q _; apply Hty|].
  rewrite He' in He. injection He as -> <- ->.
  destruct r as [c|e].
  - destruct Hr as (X & d & p & t & n & m & Hall & ->).
    unfold log_of, state_after. simpl. split; [by rewrite calls_delegated|].
    intros X' d' p' t' n' m' entry Hin.
    apply call_in_log in Hin; [|done]. injection Hin as -> -> -> -> -> -> ->.
    split; [done|].
    destruct (Hall P_X) as (sta & Ha & _ & Hc). simpl in Hc.
    destruct Hc as (_ & _ & _ & _ & Hal).
    assert (Hx : is_Some (heap (GetRNGstate st) !! x1)).
    { by apply (typed_is_live st x1 REALSXP (Hty P_X)). }
    rewrite (grown_object _ _ _ Ha Hx) in Hal.
    pose proof (Hty P_X) as Hx1. simpl in Hx1.
    change (object (GetRNGstate st) x1) with (object st x1) in Hal.
    by rewrite decide_True in Hal.
  - rewrite Hr. unfold log_of, state_after. simpl. split; [done|].
    intros X d p t n m entry Hin. by apply no_call_in_log in Hin.
Qed.

(** X3, on the sample session: the routine is entered in the state
    GetRNGstate left, with the caller's matrix. *)
Lemma X3_witness :
  (∀ q, TYPEOF (object session
                  (supplied (mk_arguments p_matrix p_dims p_perplexity p_theta
                               p_threads p_iterations) q))
        = native_type q)
  ∧ ∃ X d p t n m,
      EvRtsne_cpp X d p t n m (GetRNGstate session)
        ∈ log_of (Rtsne_multicore_Rtsne_cpp (H:=R_coerce.host) quiet left_to_right
                    p_matrix p_dims p_perplexity p_theta p_threads p_iterations
                    session)
      ∧ matrix_sexp X = p_matrix.
Proof.
  assert (Hty : ∀ q, TYPEOF (object session
                    (supplied (mk_arguments p_matrix p_dims p_perplexity p_theta
                                 p_threads p_iterations) q))
                = native_type q).
  { intros []; vm_compute; reflexivity. }
  split; [exact Hty|].
  destruct (call_when_all_convert (H:=R_coerce.host) quiet left_to_right
              p_matrix p_dims p_perplexity p_theta p_threads p_iterations session)
    as (X & d & p & t & n & m & entry & Hin).
  { intros []; vm_compute; by eexists. }
  { intros []; vm_compute; reflexivity. }
  destruct (proj2 (X3_native_types_are_passed_in_place (H:=R_coerce.host) quiet
                     left_to_right p_matrix p_dims p_perplexity p_theta p_threads
                     p_iterations session Hty) X d p t n m entry Hin) as [He HX].
  exists X, d, p, t, n, m. rewrite <- He. by split.
Defined.

(** X4.  For arguments that point to objects of the host: when the
    native routine is entered, the heap holds the objects it held
    before the call, unchanged, and one new object for each argument
    whose type is not the native one (the converted copy), no more and
    no less, whatever the order of evaluation. *)
Theorem X4_one_new_object_for_each_converted_argument `{HostCoercion}
    (Rtsne_cpp : native) (sequencing : param → nat)
    (x1 x2 x3 x4 x5 x6 : SEXP) (st : hstate) :
  let a := mk_arguments x1 x2 x3 x4 x5 x6 in
  let r := Rtsne_multicore_Rtsne_cpp Rtsne_cpp sequencing x1 x2 x3 x4 x5 x6 st in
  live st a →
  ∀ X d p t n m entry,
    EvRtsne_cpp X d p t n m entry ∈ log_of r →
    heap st ⊆ heap entry
    ∧ size (heap entry) = (size (heap st) + length (to_convert st a))%nat.
Proof.
  intros a r Hl X d p t n m entry Hin. subst r.
  destruct (wrapper_run_evaluate Rtsne_cpp sequencing x1 x2 x3 x4 x5 x6 st)
    as (r & st1 & tr & He & [l ->] & Hr). fold a in He, Hr.
  destruct (evaluate_alloc a (GetRNGstate st) (evaluation_order sequencing) Hl
              nothing_converted (GetRNGstate st) (grown_refl _))
    as (r' & st' & tr' & He' & Hsize).
  rewrite He' in He. injection He as -> -> ->.
  destruct r as [c|e].
  - destruct Hr as (X' & d' & p' & t' & n' & m' & Hall & Hr).
    rewrite Hr in Hin. unfold log_of in Hin. simpl in Hin.
    apply call_in_log in Hin; [|done]. injection Hin as -> -> -> -> -> -> ->.
    split.
    { destruct (Hall P_X) as (sta & Ha & Hb & _).
      by destruct (grown_trans _ _ _ Ha Hb) as [Hsub _]. }
    rewrite (Hsize c eq_refl). unfold to_convert. simpl. f_equal.
    apply Permutation_length. by rewrite evaluation_order_Permutation.
  - rewrite Hr in Hin. unfold log_of in Hin. simpl in Hin.
    by apply no_call_in_log in Hin.
Qed.

(** X4, on the sample session: a matrix of integers and 2.0 for the
    number of dimensions make two new objects. *)
Lemma X4_witness :
  live session
    (mk_arguments p_integer_matrix p_real_two p_perplexity p_theta p_threads p_iterations)
  ∧ length (to_convert session
              (mk_arguments p_integer_matrix p_real_two p_perplexity p_theta p_threads
                 p_iterations)) = 2%nat
  ∧ ∃ X d p t n m entry,
      EvRtsne_cpp X d p t n m entry
        ∈ log_of (Rtsne_multicore_Rtsne_cpp (H:=R_coerce.host) quiet left_to_right
                    p_integer_matrix p_real_two p_perplexity p_theta p_threads
                    p_iterations session)
      ∧ size (heap entry) = (size (heap session) + 2)%nat.
Proof.
  assert (Hl : live session
                 (mk_arguments p_integer_matrix p_real_two p_perplexity p_theta
                    p_threads p_iterations)).
  { intros []; vm_compute; by eexists. }
  split; [exact Hl|]. split; [vm_compute; reflexivity|].
  destruct (call_when_all_convert (H:=R_coerce.host) quiet left_to_right
              p_integer_matrix p_real_two p_perplexity p_theta p_threads p_iterations
              session Hl)
    as (X & d & p & t & n & m & entry & Hin).
  { intros []; vm_compute; reflexivity. }
  exists X, d, p, t, n, m, entry. split; [exact Hin|].
  exact (proj2 (X4_one_new_object_for_each_converted_argument (H:=R_coerce.host) quiet
                  left_to_right p_integer_matrix p_real_two p_perplexity p_theta
                  p_threads p_iterations session Hl X d p t n m entry Hin)).
Defined.

(** ** What the order of evaluation cannot change *)

(** X5.  For arguments that point to objects of the host: whether the
    native routine is reached does not depend on the order in which the
    compiler evaluates the arguments, and when it is reached, the five
    scalars, the number of rows and the matrix it is handed are the same
    for every order. *)
Theorem X5_the_values_passed_do_not_depend_on_the_order `{HostCoercion}
    (Rtsne_cpp : native) (sequencing sequencing' : param → nat)
    (x1 x2 x3 x4 x5 x6 : SEXP) (st : hstate) :
  let a := mk_arguments x1 x2 x3 x4 x5 x6 in
  let r := Rtsne_multicore_Rtsne_cpp Rtsne_cpp sequencing x1 x2 x3 x4 x5 x6 st in
  let r' := Rtsne_multicore_Rtsne_cpp Rtsne_cpp sequencing' x1 x2 x3 x4 x5 x6 st in
  live st a →
  (calls (log_of r) = [] ↔ calls (log_of r') = [])
  ∧ ∀ X d p t n m entry X' d' p' t' n' m' entry',
      EvRtsne_cpp X d p t n m entry ∈ log_of r →
      EvRtsne_cpp X' d' p' t' n' m' entry' ∈ log_of r' →
      d = d' ∧ p = p' ∧ t = t' ∧ n = n' ∧ m = m'
      ∧ nrows X = nrows X'
      ∧ object entry (matrix_sexp X) = object entry' (matrix_sexp X').
Proof.
  intros a r r' Hl. subst r r'. split.
  - destruct (wrapper_run_live Rtsne_cpp sequencing x1 x2 x3 x4 x5 x6 st Hl)
      as [(e & q & l1 & l2 & st1 & Ho & Hg & Hf & Hr)
         |(X & d & p & t & n & m & st1 & Hg & Hall & Hr)];
      destruct (wrapper_run_live Rtsne_cpp sequencing' x1 x2 x3 x4 x5 x6 st Hl)
      as [(e' & q' & l1' & l2' & st1' & Ho' & Hg' & Hf' & Hr')
         |(X' & d' & p' & t' & n' & m' & st1' & Hg' & Hall' & Hr')];
      rewrite Hr, Hr'; unfold log_of; simpl;
      rewrite ?calls_failed, ?calls_delegated; try done.
    + destruct (Hall' q) as [Hnone _]. by rewrite Hnone in Hf.
    + destruct (Hall q') as [Hnone _]. by rewrite Hnone in Hf'.
  - intros X d p t n m entry X' d' p' t' n' m' entry' Hin Hin'.
    destruct (call_converts _ _ _ _ _ _ _ _ _ _ _ _ _ _ _ _ Hl Hin) as [_ Hall].
    destruct (call_converts _ _ _ _ _ _ _ _ _ _ _ _ _ _ _ _ Hl Hin') as [_ Hall'].
    destruct (Hall P_X) as [_ (_ & _ & HX & HrX & _)].
    destruct (Hall' P_X) as [_ (_ & _ & HX' & HrX' & _)].
    destruct (Hall P_no_dims_in) as [_ [_ Hd]].
    destruct (Hall' P_no_dims_in) as [_ [_ Hd']].
    destruct (Hall P_perplexity_in) as [_ [_ Hp]].
    destruct (Hall' P_perplexity_in) as [_ [_ Hp']].
    destruct (Hall P_theta_in) as [_ [_ Ht]].
    destruct (Hall' P_theta_in) as [_ [_ Ht']].
    destruct (Hall P_num_threads) as [_ [_ Hn]].
    destruct (Hall' P_num_threads) as [_ [_ Hn']].
    destruct (Hall P_max_iter) as [_ [_ Hm]].
    destruct (Hall' P_max_iter) as [_ [_ Hm']].
    simpl in *.
    rewrite HrX, HrX'.
    assert (HXX : object entry (matrix_sexp X) = object entry' (matrix_sexp X'))
      by congruence.
    rewrite HXX. split_and!; congruence.
Qed.

(** X5, on the sample session, from left to right and from right to
    left. *)
Lemma X5_witness :
  live session (mk_arguments p_integer_matrix p_dims p_perplexity p_theta p_threads
                  p_iterations)
  ∧ (calls (log_of (Rtsne_multicore_Rtsne_cpp (H:=R_coerce.host) quiet left_to_right
                      p_integer_matrix p_dims p_perplexity p_theta p_threads
                      p_iterations session)) = []
     ↔ calls (log_of (Rtsne_multicore_Rtsne_cpp (H:=R_coerce.host) quiet right_to_left
                        p_integer_matrix p_dims p_perplexity p_theta p_threads
                        p_iterations session)) = []).
Proof.
  assert (Hl : live session
                 (mk_arguments p_integer_matrix p_dims p_perplexity p_theta p_threads
                    p_iterations)).
  { intros []; vm_compute; by eexists. }
  split; [exact Hl|].
  exact (proj1 (X5_the_values_passed_do_not_depend_on_the_order (H:=R_coerce.host)
                  quiet left_to_right right_to_left p_integer_matrix p_dims
                  p_perplexity p_theta p_threads p_iterations session Hl)).
Defined.

(** ** The matrix that is passed *)



(** ** Numbers of the other kind, with the conversions of R *)

(** X7.  With the conversions of R: a double supplied for one of the
    three counts is converted without an error of conversion; when the
    five other arguments convert, the native routine is called with an
    int of the range of C and the call ends as the routine ends.  A
    whole number of that range arrives as itself (R writes 2 as a
    double); a number with a fraction arrives without it, rounded
    towards zero; NaN, NA and the infinities arrive as NA_INTEGER, which
    is INT_MIN.  (The warning R gives when a conversion yields NA is
    not part of the model.) *)
Theorem X7_a_double_given_for_an_int
    (Rtsne_cpp : native) (sequencing : param → nat)
    (x1 x2 x3 x4 x5 x6 : SEXP) (st : hstate) (q : param)
    (x : double) (dm : option (list Z)) (nm : option (list string)) :
  let a := mk_arguments x1 x2 x3 x4 x5 x6 in
  let r := Rtsne_multicore_Rtsne_cpp (H:=R_coerce.host) Rtsne_cpp sequencing
             x1 x2 x3 x4 x5 x6 st in
  live st a →
  q ∈ [P_no_dims_in; P_num_threads; P_max_iter] →
  heap st !! supplied a q = Some (mk_robj (Real [x]) dm nm) →
  ∃ k,
    - 2 ^ 31 ≤ k < 2 ^ 31
    ∧ (∀ w, IEEE754.value_of x = IEEE754.of_int w →
         - 2 ^ 31 < w < 2 ^ 31 → k = w)
    ∧ (∀ s w, IEEE754.value_of x = IEEE754.Finite s →
         - 2 ^ 31 < w < 2 ^ 31 →
         (0 ≤ w ∧ w * 2 ^ 1074 ≤ s < (w + 1) * 2 ^ 1074)
         ∨ (w ≤ 0 ∧ (w - 1) * 2 ^ 1074 < s ≤ w * 2 ^ 1074) →
         k = w)
    ∧ ((∀ s, IEEE754.value_of x ≠ IEEE754.Finite s) → k = NA_INTEGER)
    ∧ conversion_failure (H:=R_coerce.host) st a q = None
    ∧ ((∀ p, p ≠ q → conversion_failure (H:=R_coerce.host) st a p = None) →
       ∃ X d p t n m entry,
         calls (log_of r) = [EvRtsne_cpp X d p t n m entry]
         ∧ passed X d p t n m q = Integer k
         ∧ outcome_of r = ending (Rtsne_cpp X d p t n m entry).1
         ∧ state_after r = PutRNGstate (Rtsne_cpp X d p t n m entry).2)
    ∧ (∀ X d p t n m entry,
         EvRtsne_cpp X d p t n m entry ∈ log_of r →
         passed X d p t n m q = Integer k).
Proof.
  intros a r Hl Hq Hx. subst r.
  assert (Hint : ∀ entry X d p t n m,
            converts (H:=R_coerce.host) st entry a q (passed X d p t n m q) →
            passed X d p t n m q = Integer (R_coerce.IntegerFromReal x)).
  { intros entry X d p t n m Hc.
    rewrite !elem_of_cons, elem_of_nil in Hq.
    destruct Hq as [->|[->|[->|[]]]]; simpl in *; destruct Hc as [_ Hc];
      rewrite (object_live _ _ _ Hx) in Hc; by injection Hc as <-. }
  assert (Hnone : conversion_failure (H:=R_coerce.host) st a q = None).
  { rewrite !elem_of_cons, elem_of_nil in Hq.
    destruct Hq as [->|[->|[->|[]]]]; unfold conversion_failure; simpl in *;
      by rewrite (object_live _ _ _ Hx). }
  exists (R_coerce.IntegerFromReal x).
  split; [apply IEEE754_facts.IntegerFromReal_range|]. split_and!.
  - intros w Hv Hw. apply (IEEE754_facts.IntegerFromReal_truncate x _ w Hv); [|done].
    apply IEEE754_facts.truncate_of_int.
  - intros s w Hv Hw Hs. apply (IEEE754_facts.IntegerFromReal_truncate x s w Hv); [|done].
    by apply IEEE754_facts.truncate_between.
  - intros Hnot. unfold R_coerce.IntegerFromReal.
    destruct (IEEE754.value_of x) as [| |s]; [done..|]. by destruct (Hnot s).
  - done.
  - intros Hothers.
    assert (Hall : ∀ p, conversion_failure (H:=R_coerce.host) st a p = None).
    { intros p. destruct (decide (p = q)) as [->|Hne]; [done|by apply Hothers]. }
    destruct (delegated_run (H:=R_coerce.host) Rtsne_cpp sequencing
                x1 x2 x3 x4 x5 x6 st Hl Hall)
      as (X & d & p & t & n & m & entry & _ & Hc & Hr).
    exists X, d, p, t, n, m, entry. rewrite Hr.
    unfold log_of, outcome_of, state_after. simpl.
    split; [apply calls_delegated|]. split; [|done].
    by apply (Hint entry).
  - intros X d p t n m entry Hin.
    destruct (call_converts (H:=R_coerce.host) _ _ _ _ _ _ _ _ _ _ _ _ _ _ _ _ Hl Hin)
      as [_ Hall].
    apply (Hint entry). apply Hall.
Qed.

(** X7, on the sample session: with 2.0 for the number of dimensions
    the routine is called, with 2. *)
Lemma X7_witness :
  live session (mk_arguments p_matrix p_real_two p_perplexity p_theta p_threads p_iterations)
  ∧ IEEE754.value_of two = IEEE754.of_int 2
  ∧ ∃ X d p t n m entry,
      calls (log_of (Rtsne_multicore_Rtsne_cpp (H:=R_coerce.host) quiet left_to_right
                       p_matrix p_real_two p_perplexity p_theta p_threads
                       p_iterations session))
      = [EvRtsne_cpp X d p t n m entry]
      ∧ d = 2.
Proof.
  assert (Hl : live session
                 (mk_arguments p_matrix p_real_two p_perplexity p_theta p_threads
                    p_iterations)).
  { intros []; vm_compute; by eexists. }
  assert (Hv : IEEE754.value_of two = IEEE754.of_int 2) by (vm_compute; reflexivity).
  split; [exact Hl|]. split; [exact Hv|].
  destruct (X7_a_double_given_for_an_int quiet left_to_right
              p_matrix p_real_two p_perplexity p_theta p_threads p_iterations
              session P_no_dims_in two None None Hl)
    as (k & _ & Hw & _ & _ & _ & Hreached & _).
  - apply list_elem_of_here.
  - vm_compute. reflexivity.
  - destruct Hreached as (X & d & p & t & n & m & entry & Hc & Hp & _).
    { intros p _. destruct p; vm_compute; reflexivity. }
    exists X, d, p, t, n, m, entry. split; [exact Hc|].
    injection Hp as ->. apply Hw; [exact Hv|lia].
Defined.



(** ** The seed across a call *)

(** X9.  When the native routine leaves the generator as it found it
    (it draws no random number), or is not reached, .Random.seed holds
    after the call what it held before: GetRNGstate followed by
    PutRNGstate is a round trip.  In a session without .Random.seed the
    variable is created, from the clock. *)
Theorem X9_the_seed_survives_a_call_that_draws_nothing `{HostCoercion}
    (Rtsne_cpp : native) (sequencing : param → nat)
    (x1 x2 x3 x4 x5 x6 : SEXP) (st : hstate) :
  let r := Rtsne_multicore_Rtsne_cpp Rtsne_cpp sequencing x1 x2 x3 x4 x5 x6 st in
  (∀ X d p t n m entry,
     EvRtsne_cpp X d p t n m entry ∈ log_of r →
     generator (Rtsne_cpp X d p t n m entry).2 = generator entry) →
  Random_seed (state_after r)
  = Some (match Random_seed st with Some seed => seed | None => entropy st end).
Proof.
  intros r Hquiet. subst r.
  destruct (wrapper_run Rtsne_cpp sequencing x1 x2 x3 x4 x5 x6 st)
    as [(e' & l1 & q & l2 & sta & st1 & Ho & Ha & Hg & Hf & Hr)
       |(X & d & p & t & n & m & st1 & Hg & Hall & Hr)];
    rewrite Hr in Hquiet |- *; unfold log_of, state_after in *; simpl in *.
  - by destruct Hg as (_ & _ & -> & _).
  - rewrite (Hquiet X d p t n m st1).
    + by destruct Hg as (_ & _ & -> & _).
    + rewrite elem_of_cons, elem_of_app, elem_of_cons. right. right. by left.
Qed.

(** X9, on the sample session: the seed is 7 before and after. *)
Lemma X9_witness :
  Random_seed session = Some 7
  ∧ Random_seed
      (state_after (Rtsne_multicore_Rtsne_cpp (H:=R_coerce.host) quiet left_to_right
                      p_matrix p_dims p_perplexity p_theta p_threads p_iterations
                      session))
    = Some 7.
Proof.
  split; [reflexivity|].
  apply (X9_the_seed_survives_a_call_that_draws_nothing (H:=R_coerce.host) quiet
           left_to_right p_matrix p_dims p_perplexity p_theta p_threads p_iterations
           session).
  intros X d p t n m entry _. reflexivity.
Defined.
